(** * HmIPPlatform: the state reconciliation engine of homebridge-homematicip

    A shallow embedding of [src/HmIPPlatform.ts].  The platform object, the
    [hmIPState] snapshot captured by the notification callback and the
    [PlatformAccessory] objects live in one explicit store; every call that
    leaves the file (logger, connector, homebridge API, device classes) is
    recorded, in order, in a trace of effects. *)

From Stdlib Require Import String List Bool Arith Lia.
From stdpp Require Import base option list strings gmap.
Import ListNotations.

Local Open Scope string_scope.
Local Open Scope list_scope.

(** ** Insertion-ordered maps

    A JavaScript [Map] (and a plain object with non-index string keys)
    enumerates its keys in insertion order; [set] on a present key keeps the
    key's position, [delete] removes the key. *)

Module OMap.
Section Ops.
Context {V : Type}.

Definition t := list (string * V).

Fixpoint get (k : string) (m : list (string * V)) : option V :=
  match m with
  | [] => None
  | (k', v) :: m' => if String.eqb k' k then Some v else get k m'
  end.

Definition has (k : string) (m : list (string * V)) : bool :=
  match get k m with Some _ => true | None => false end.

Fixpoint set (k : string) (v : V) (m : list (string * V)) : list (string * V) :=
  match m with
  | [] => [(k, v)]
  | (k', v') :: m' =>
      if String.eqb k' k then (k', v) :: m' else (k', v') :: set k v m'
  end.

Fixpoint delete (k : string) (m : list (string * V)) : list (string * V) :=
  match m with
  | [] => []
  | (k', v') :: m' =>
      if String.eqb k' k then delete k m' else (k', v') :: delete k m'
  end.

Definition keys (m : list (string * V)) : list string := map fst m.
End Ops.
Arguments t : clear implicits.
End OMap.

(** ** Data model *)

(** [HmIPHome] of [./HmIPState]: the fields the platform reads or writes; the
    three tags written by [setHome] are absent from a payload until then. *)
Record HmIPHome := mkHome {
  home_id : string;
  currentAPVersion : string;
  oem : option string;
  home_modelType : option string;
  firmwareVersion : option string;
  home_payload : string
}.

(** [HmIPGroup] of [./HmIPState]: identity plus an opaque payload. *)
Record HmIPGroup := mkGroup {
  group_id : string;
  group_payload : string
}.

(** [HmIPDevice] of [./HmIPState]. *)
Record HmIPDevice := mkDevice {
  device_id : string;
  device_type : string;
  label : string;
  modelType : string;
  device_payload : string
}.

(** [HmIPState]: the answer of [home/getCurrentState], as it comes out of a
    JSON parse.  [groups] is only ever written by key, [devices] is
    enumerated by [for .. in].  [groups] is a plain object: [st_groups] are
    its own properties and [st_groups_proto] is its prototype, [None] while
    that is still [Object.prototype]. *)
Record HmIPState := mkState {
  st_home : HmIPHome;
  st_groups : gmap string HmIPGroup;
  st_devices : OMap.t HmIPDevice;
  st_groups_proto : option HmIPGroup
}.

(** One entry of [HmIPStateChange.events]. *)
Record HmIPEvent := mkEvent {
  pushEventType : string;
  ev_group : option HmIPGroup;
  ev_device : option HmIPDevice;
  ev_home : option HmIPHome
}.

(** [HmIPStateChange.events], in the order [for .. in] enumerates it. *)
Definition HmIPStateChange := list (string * HmIPEvent).

(** Objects of class [PlatformAccessory] are referred to by their address in
    the store. *)
Abbreviation loc := nat (only parsing).

(** [accessory.context.device] is typed [any]. *)
Inductive Context :=
| CtxDevice (d : HmIPDevice)
| CtxHome (h : HmIPHome).

Record PlatformAccessory := mkAccessory {
  UUID : string;
  displayName : string;
  context_device : option Context
}.

(** Modelled from the spec: the class [HmIPAccessory] ([./HmIPAccessory]) is not
    part of the source at hand.  The wrapper returned by [createAccessory]
    holds the accessory and whether it was pre-existing; its [register()] is
    the separate, explicit registration step. *)
Record HmIPAccessory := mkHmIPAccessory {
  accessory : loc;
  isFromCache : bool
}.

Inductive DeviceKind := Thermostat | Shutter | HomeControlAccessPoint.

(** Modelled from the spec: the classes [HmIPThermostat], [HmIPShutter] and
    [HmIPHomeControlAccessPoint] ([./devices/*], subclasses of
    [HmIPGenericDevice]) are not part of the source at hand.  A bound device
    handle owns the Home reference and the accessory it was constructed with;
    the platform reads [accessory] and writes [home] on it. *)
Record HmIPGenericDevice := mkHandle {
  kind : DeviceKind;
  dev_home : option HmIPHome;
  dev_accessory : loc
}.

(** [this.groups] is either unassigned or the very object [hmIPState.groups]
    (line 86): a write through either name is a write to the same object. *)
Inductive GroupsRef := GroupsUndefined | GroupsOfSnapshot.

(** The store: the fields of the platform object, the [PlatformAccessory]
    objects, and the [hmIPState] local of [discoverDevices] that the
    notification callback closes over. *)
Record Platform := mkPlatform {
  heap : list PlatformAccessory;
  accessories : list loc;
  groups : GroupsRef;
  home : option HmIPHome;
  deviceMap : OMap.t HmIPGenericDevice;
  hmIPState : option HmIPState
}.

(** The platform right after its constructor ran. *)
Definition new_platform : Platform :=
  mkPlatform [] [] GroupsUndefined None [] None.

(** ** Effects *)

Inductive Level := Debug | Info | Warn.

(** An argument passed to [updateDevice]. *)
Inductive JSArg :=
| ArgUndefined
| ArgHome (h : HmIPHome)
| ArgDevice (d : HmIPDevice)
| ArgGroups (g : gmap string HmIPGroup)
| ArgHandle (h : HmIPGenericDevice).

Inductive Effect :=
| Log (lvl : Level) (args : list string)
| ConnectorInit
| ApiCall (path : string)
| ConnectWs
| NewPlatformAccessory (name uuid : string) (l : loc)
| NewDevice (k : DeviceKind) (h : option HmIPHome) (acc : loc)
| Register (acc : loc) (fromCache : bool)
| Unregister (accs : list loc)
| UpdateDevice (target : string) (args : list JSArg).

(** State and trace. *)
Definition M (A : Type) : Type := Platform -> A * Platform * list Effect.

Definition value_of {A} (r : A * Platform * list Effect) : A := fst (fst r).
Definition state_of {A} (r : A * Platform * list Effect) : Platform := snd (fst r).
Definition trace_of {A} (r : A * Platform * list Effect) : list Effect := snd r.

Definition ret {A} (a : A) : M A := fun p => (a, p, []).

Definition bind {A B} (c : M A) (k : A -> M B) : M B :=
  fun p =>
    let r1 := c p in
    let r2 := k (value_of r1) (state_of r1) in
    (value_of r2, state_of r2, trace_of r1 ++ trace_of r2).

Definition emit (e : Effect) : M unit := fun p => (tt, p, [e]).
Definition gets {A} (f : Platform -> A) : M A := fun p => (f p, p, []).
Definition modify (f : Platform -> Platform) : M unit := fun p => (tt, f p, []).

Notation "'let*' x ':=' c 'in' k" := (bind c (fun x => k))
  (at level 10, x name, c at level 100, k at level 200).
Notation "c ';;' k" := (bind c (fun _ => k))
  (at level 100, k at level 200, right associativity).

Fixpoint forM_ {A} (l : list A) (body : A -> M unit) : M unit :=
  match l with
  | [] => ret tt
  | x :: l' => body x ;; forM_ l' body
  end.

(** ** Field updates of the store *)

Definition set_heap (h : list PlatformAccessory) (p : Platform) : Platform :=
  mkPlatform h (accessories p) (groups p) (home p) (deviceMap p) (hmIPState p).
Definition set_accessories (a : list loc) (p : Platform) : Platform :=
  mkPlatform (heap p) a (groups p) (home p) (deviceMap p) (hmIPState p).
Definition set_groups (g : GroupsRef) (p : Platform) : Platform :=
  mkPlatform (heap p) (accessories p) g (home p) (deviceMap p) (hmIPState p).
Definition set_deviceMap (m : OMap.t HmIPGenericDevice) (p : Platform) : Platform :=
  mkPlatform (heap p) (accessories p) (groups p) (home p) m (hmIPState p).
Definition set_hmIPState (s : option HmIPState) (p : Platform) : Platform :=
  mkPlatform (heap p) (accessories p) (groups p) (home p) (deviceMap p) s.

Definition with_st_home (h : HmIPHome) (s : HmIPState) : HmIPState :=
  mkState h (st_groups s) (st_devices s) (st_groups_proto s).
Definition with_st_groups (g : gmap string HmIPGroup) (s : HmIPState) : HmIPState :=
  mkState (st_home s) g (st_devices s) (st_groups_proto s).
Definition with_st_devices (d : OMap.t HmIPDevice) (s : HmIPState) : HmIPState :=
  mkState (st_home s) (st_groups s) d (st_groups_proto s).

(** Whether [groups[k] = ..] lands on the [__proto__] accessor inherited from
    [Object.prototype] instead of on an own property. *)
Definition hits_proto_setter (k : string) (own : gmap string HmIPGroup) : bool :=
  match own !! k with
  | Some _ => false
  | None => String.eqb k "__proto__"
  end.

(** [hmIPState.groups[k] = v], [v] an object.  The assignment writes the own
    property [k], except for the key [__proto__] when the object has no own
    property of that name: then the inherited setter makes [v] the
    prototype of the object and no property is added. *)
Definition groups_assign (k : string) (v : HmIPGroup) (s : HmIPState) : HmIPState :=
  if hits_proto_setter k (st_groups s)
  then mkState (st_home s) (st_groups s) (st_devices s) (Some v)
  else with_st_groups (<[k := v]> (st_groups s)) s.

(** [delete hmIPState.groups[k]]: own properties only. *)
Definition groups_delete (k : string) (s : HmIPState) : HmIPState :=
  with_st_groups (delete k (st_groups s)) s.

(** A write to a field of the [hmIPState] object. *)
Definition update_hmIPState (f : HmIPState -> HmIPState) (p : Platform) : Platform :=
  set_hmIPState (f <$> hmIPState p) p.

(** The own properties of the object [this.groups] refers to, if any. *)
Definition this_groups (p : Platform) : option (gmap string HmIPGroup) :=
  match groups p with
  | GroupsUndefined => None
  | GroupsOfSnapshot => st_groups <$> hmIPState p
  end.

(** A write [this.groups[..] = ..] or [delete this.groups[..]]: it lands in the
    object the reference points to. *)
Definition update_this_groups (f : HmIPState -> HmIPState) (p : Platform) : Platform :=
  match groups p with
  | GroupsUndefined => p
  | GroupsOfSnapshot => update_hmIPState f p
  end.

Definition with_context (c : Context) (a : PlatformAccessory) : PlatformAccessory :=
  mkAccessory (UUID a) (displayName a) (Some c).

Definition with_home (h : option HmIPHome) (d : HmIPGenericDevice) : HmIPGenericDevice :=
  mkHandle (kind d) h (dev_accessory d).

(** How a value that may be [undefined] is passed on. *)
Definition arg_of_home (h : option HmIPHome) : JSArg :=
  match h with Some h => ArgHome h | None => ArgUndefined end.
Definition arg_of_groups (g : option (gmap string HmIPGroup)) : JSArg :=
  match g with Some g => ArgGroups g | None => ArgUndefined end.

(** [`${x}`] of an object or of [undefined]. *)
Definition show_object {A} (o : option A) : string :=
  match o with Some _ => "[object Object]" | None => "undefined" end.

(** [Array.prototype.join]. *)
Fixpoint join (sep : string) (l : list string) : string :=
  match l with
  | [] => ""
  | [x] => x
  | x :: l' => x +:+ sep +:+ join sep l'
  end.

(** ** The platform *)

Section HmIPPlatform.

(** [api.hap.uuid.generate] and [JSON.stringify] are library functions. *)
Variable generate : string -> string.
Variable stringify_device : HmIPDevice -> string.
Variable stringify_home : HmIPHome -> string.

(** [new this.api.platformAccessory(displayName, uuid)]: a fresh object. *)
Definition alloc (a : PlatformAccessory) : M loc :=
  fun p => (length (heap p), set_heap (heap p ++ [a]) p, []).

Definition new_platformAccessory (name uuid : string) : M loc :=
  let* l := alloc (mkAccessory uuid name None) in
  emit (NewPlatformAccessory name uuid l) ;;
  ret l.

(** [accessoryFound.UUID === uuid] *)
Definition uuid_is (h : list PlatformAccessory) (uuid : string) (l : loc) : bool :=
  match h !! l with
  | Some a => String.eqb (UUID a) uuid
  | None => false
  end.

Definition getAccessory (uuid : string) : M (option loc) :=
  gets (fun p => List.find (uuid_is (heap p) uuid) (accessories p)).

(** [configureAccessory]: homebridge hands over an accessory object it
    restored from disk. *)
Definition configureAccessory (a : PlatformAccessory) : M unit :=
  let* l := alloc a in
  let* found := getAccessory (UUID a) in
  match found with
  | Some _ => ret tt
  | None =>
      emit (Log Info ["Loading accessory from cache:"; displayName a]) ;;
      modify (fun p => set_accessories (accessories p ++ [l]) p)
  end.

Definition createAccessory (uuid name : string) (deviceContext : Context)
  : M HmIPAccessory :=
  let* existingAccessory := getAccessory uuid in
  match existingAccessory with
   | Some _ => ret tt
   | None =>
       let* pool := gets accessories in
       emit (Log Debug ["Could not find existing accessory in pool: "
                        +:+ join ", " (map (fun _ => "[object Object]") pool)])
   end ;;
  let* acc := match existingAccessory with
               | Some l => ret l
               | None => new_platformAccessory name uuid
               end in
  modify (fun p => set_heap (alter (with_context deviceContext) acc (heap p)) p) ;;
  ret (mkHmIPAccessory acc (match existingAccessory with
                            | Some _ => true
                            | None => false
                            end)).

Definition updateHomeAccessories (h : HmIPHome) : M unit := ret tt.

(** [setHome] writes three fields of the object it is given; the result is
    that object after the call. *)
Definition setHome (h : HmIPHome) : M HmIPHome :=
  let h1 := mkHome (home_id h) (currentAPVersion h) (Some "eQ-3")
                   (home_modelType h) (firmwareVersion h) (home_payload h) in
  let h2 := mkHome (home_id h1) (currentAPVersion h1) (oem h1)
                   (Some "HmIPHome") (firmwareVersion h1) (home_payload h1) in
  let h3 := mkHome (home_id h2) (currentAPVersion h2) (oem h2)
                   (home_modelType h2) (Some (currentAPVersion h2)) (home_payload h2) in
  updateHomeAccessories h3 ;;
  ret h3.

(** [new HmIPThermostat(this, home, accessory)] and its siblings. *)
Definition new_device (k : DeviceKind) (h : option HmIPHome) (acc : loc)
  : M HmIPGenericDevice :=
  emit (NewDevice k h acc) ;;
  ret (mkHandle k h acc).

Definition updateAccessory (id : string) (h : option HmIPHome) (device : HmIPDevice)
  : M unit :=
  let uuid := generate id in
  let* hmIPAccessory := createAccessory uuid (label device) (CtxDevice device) in
  let* homebridgeDevice :=
     if String.eqb (device_type device) "WALL_MOUNTED_THERMOSTAT_PRO" then
       let* d := new_device Thermostat h (accessory hmIPAccessory) in ret (Some d)
     else if String.eqb (device_type device) "FULL_FLUSH_SHUTTER" then
       let* d := new_device Shutter h (accessory hmIPAccessory) in ret (Some d)
     else if String.eqb (device_type device) "HOME_CONTROL_ACCESS_POINT" then
       emit (Log Debug ["Creating: " +:+ stringify_device device]) ;;
       let* d := new_device HomeControlAccessPoint h (accessory hmIPAccessory) in
       ret (Some d)
     else
       emit (Log Warn ["Device not implemented: " +:+ modelType device
                       +:+ " - " +:+ label device]) ;;
       ret None in
  match homebridgeDevice with
  | None => ret tt
  | Some d =>
      modify (fun p => set_deviceMap (OMap.set id d (deviceMap p)) p) ;;
      emit (Register (accessory hmIPAccessory) (isFromCache hmIPAccessory))
  end.

(** One iteration of the [switch] in the notification callback. *)
Definition handle_event (event : HmIPEvent) : M unit :=
  let ty := pushEventType event in
  if String.eqb ty "GROUP_CHANGED" || String.eqb ty "GROUP_ADDED" then
    match ev_group event with
    | Some g =>
        emit (Log Debug [ty +:+ ": " +:+ group_id g]) ;;
        modify (update_hmIPState (groups_assign (group_id g) g)) ;;
        modify (update_this_groups (groups_assign (group_id g) g))
    | None => ret tt
    end
  else if String.eqb ty "GROUP_REMOVED" then
    match ev_group event with
    | Some g =>
        emit (Log Debug [ty +:+ ": " +:+ group_id g]) ;;
        modify (update_hmIPState (groups_delete (group_id g))) ;;
        modify (update_this_groups (groups_delete (group_id g)))
    | None => ret tt
    end
  else if String.eqb ty "DEVICE_REMOVED" then
    match ev_device event with
    | Some d =>
        emit (Log Debug [ty +:+ ": " +:+ device_id d +:+ " " +:+ modelType d]) ;;
        let* hmIPDevice := gets (fun p => OMap.get (device_id d) (deviceMap p)) in
        match hmIPDevice with
        | Some dev =>
            emit (Unregister [dev_accessory dev]) ;;
            modify (update_hmIPState
                      (fun s => with_st_devices
                                  (OMap.delete (device_id d) (st_devices s)) s)) ;;
            modify (fun p => set_deviceMap (OMap.delete (device_id d) (deviceMap p)) p)
        | None => emit (Log Warn ["Cannot find device: " +:+ device_id d])
        end
    | None => ret tt
    end
  else if String.eqb ty "DEVICE_CHANGED" || String.eqb ty "DEVICE_ADDED" then
    match ev_device event with
    | Some d =>
        emit (Log Debug [ty +:+ ": " +:+ device_id d +:+ " " +:+ modelType d]) ;;
        let* known := gets (fun p => OMap.has (device_id d) (deviceMap p)) in
        if known then
          let* h := gets home in
          let* gs := gets this_groups in
          emit (UpdateDevice (device_id d) [arg_of_home h; ArgDevice d; arg_of_groups gs])
        else emit (Log Warn ["Cannot find device: " +:+ device_id d])
    | None => ret tt
    end
  else if String.eqb ty "HOME_CHANGED" then
    match ev_home event with
    | Some h =>
        emit (Log Debug [ty +:+ ": " +:+ home_id h +:+ " " +:+ stringify_home h]) ;;
        let* h' := setHome h in
        let* ids := gets (fun p => OMap.keys (deviceMap p)) in
        forM_ ids (fun id =>
          let* entry := gets (fun p => OMap.get id (deviceMap p)) in
          match entry with
          | Some device =>
              let device' := with_home (Some h') device in
              modify (fun p => set_deviceMap (OMap.set id device' (deviceMap p)) p) ;;
              let* gs := gets this_groups in
              emit (UpdateDevice id [ArgHandle device'; arg_of_groups gs])
          | None => ret tt
          end)
    | None => ret tt
    end
  else
    emit (Log Debug ["Unhandled event type: " +:+ ty
                     +:+ " group=" +:+ show_object (ev_group event)
                     +:+ " device=" +:+ show_object (ev_device event)]).

(** The callback given to [connectWs], applied to a parsed message. *)
Definition onMessage (stateChange : HmIPStateChange) : M unit :=
  forM_ stateChange (fun entry => handle_event (snd entry)).

(** [discoverDevices]; [init_ok] is the answer of [connector.init()] and
    [snapshot] the answer of [home/getCurrentState]. *)
Definition discoverDevices (init_ok : bool) (snapshot : HmIPState) : M unit :=
  emit ConnectorInit ;;
  if negb init_ok then ret tt
  else
    emit (ApiCall "home/getCurrentState") ;;
    modify (set_hmIPState (Some snapshot)) ;;
    modify (set_groups GroupsOfSnapshot) ;;
    let* h := setHome (st_home snapshot) in
    modify (update_hmIPState (with_st_home h)) ;;
    forM_ (OMap.keys (st_devices snapshot)) (fun id =>
      match OMap.get id (st_devices snapshot) with
      | Some device =>
          let* h := gets home in
          updateAccessory id h device
      | None => ret tt
      end) ;;
    emit ConnectWs.

(** A run of the plugin: discovery, then the messages the feed delivers. *)
Definition run (init_ok : bool) (snapshot : HmIPState) (feed : list HmIPStateChange)
  : M unit :=
  discoverDevices init_ok snapshot ;;
  if init_ok then forM_ feed onMessage else ret tt.

End HmIPPlatform.

(** The declared types the platform binds (the [if] chain of
    [updateAccessory]). *)
Definition supported_type (ty : string) : bool :=
  String.eqb ty "WALL_MOUNTED_THERMOSTAT_PRO"
  || String.eqb ty "FULL_FLUSH_SHUTTER"
  || String.eqb ty "HOME_CONTROL_ACCESS_POINT".

Definition kind_of_type (ty : string) : option DeviceKind :=
  if String.eqb ty "WALL_MOUNTED_THERMOSTAT_PRO" then Some Thermostat
  else if String.eqb ty "FULL_FLUSH_SHUTTER" then Some Shutter
  else if String.eqb ty "HOME_CONTROL_ACCESS_POINT" then Some HomeControlAccessPoint
  else None.

Definition is_register (e : Effect) : bool :=
  match e with Register _ _ => true | _ => false end.
Definition is_unregister (e : Effect) : bool :=
  match e with Unregister _ => true | _ => false end.
Definition is_update (e : Effect) : bool :=
  match e with UpdateDevice _ _ => true | _ => false end.
Definition is_new_accessory (e : Effect) : bool :=
  match e with NewPlatformAccessory _ _ _ => true | _ => false end.


(** The notification callback exists only once [hmIPState] does, and then
    [this.groups] is bound to its [groups]. *)
Definition subscribed (p : Platform) : Prop :=
  is_Some (hmIPState p) /\ groups p = GroupsOfSnapshot.

(** [c] keeps the property [I] of the store. *)
Definition preserves {A} (I : Platform -> Prop) (c : M A) : Prop :=
  forall p, I p -> I (state_of (c p)).

(** The object [setHome] leaves behind. *)
Definition normalized (h : HmIPHome) : HmIPHome :=
  mkHome (home_id h) (currentAPVersion h) (Some "eQ-3") (Some "HmIPHome")
         (Some (currentAPVersion h)) (home_payload h).

(** Whether the snapshot holds, under [id], a device of a supported type. *)
Definition binds (devs : OMap.t HmIPDevice) (id : string) : bool :=
  match OMap.get id devs with
  | Some d => supported_type (device_type d)
  | None => false
  end.


(** The snapshot pass binds every handle to [this.home] as it is then. *)
Definition homeless (p : Platform) : Prop :=
  home p = None
  /\ forall id dev, In (id, dev) (deviceMap p) -> dev_home dev = None.

(** The idempotence asked of resolution: two resolutions of one identity
    end in one accessory, and that accessory holds the latest context. *)
Definition resolves_to_one_accessory
    (uuid n1 n2 : string) (c1 c2 : Context) (p : Platform) : Prop :=
  let r1 := createAccessory uuid n1 c1 p in
  let r2 := createAccessory uuid n2 c2 (state_of r1) in
  accessory (value_of r1) = accessory (value_of r2)
  /\ context_device <$> heap (state_of r2) !! accessory (value_of r2) = Some (Some c2).

(** ** Further vocabulary *)

Definition is_new_device (e : Effect) : bool :=
  match e with NewDevice _ _ _ => true | _ => false end.
Definition is_connector (e : Effect) : bool :=
  match e with ConnectorInit | ApiCall _ | ConnectWs => true | _ => false end.

(** [c] never makes a call of the kind [f]. *)
Definition never {A} (f : Effect -> bool) (c : M A) : Prop :=
  forall p, List.filter f (trace_of (c p)) = [].

(** The event kinds the [switch] of the callback has a [case] for. *)
Definition known_types : list string :=
  ["GROUP_CHANGED"; "GROUP_ADDED"; "GROUP_REMOVED"; "DEVICE_REMOVED";
   "DEVICE_CHANGED"; "DEVICE_ADDED"; "HOME_CHANGED"].

(** The identities of the accessories in [this.accessories]. *)
Definition pool_uuids (p : Platform) : list (option string) :=
  map (fun l => UUID <$> heap p !! l) (accessories p).

(** [this.accessories] refers to existing objects, no two of one identity. *)
Definition pool_ok (p : Platform) : Prop :=
  (forall l, In l (accessories p) -> l < length (heap p))
  /\ List.NoDup (pool_uuids p).

(** What the [forEach] of a home-changed event makes of one entry. *)
Definition rehome (h : HmIPHome) (entry : string * HmIPGenericDevice)
  : string * HmIPGenericDevice :=
  (fst entry, with_home (Some (normalized h)) (snd entry)).

(** Where a store [q] stands relative to an earlier one [p] when only
    events have been handled in between. *)
Definition after_events (p q : Platform) : Prop :=
  heap q = heap p /\ accessories q = accessories p /\ home q = home p
  /\ incl (OMap.keys (deviceMap q)) (OMap.keys (deviceMap p)).

(** Handling events keeps the table keyed once and accounts for every
    binding it drops by one unregistration call. *)
Definition conserves {A} (c : M A) : Prop :=
  forall q, List.NoDup (OMap.keys (deviceMap q)) ->
    List.NoDup (OMap.keys (deviceMap (state_of (c q))))
    /\ length (OMap.keys (deviceMap (state_of (c q))))
       + length (List.filter is_unregister (trace_of (c q)))
       = length (OMap.keys (deviceMap q)).

(** ** A small installation *)

Module Sample.

Definition generate (id : string) : string := "uuid:" +:+ id.
Definition stringify_device (d : HmIPDevice) : string := "{device " +:+ device_id d +:+ "}".
Definition stringify_home (h : HmIPHome) : string := "{home " +:+ home_id h +:+ "}".

Definition home_v1 : HmIPHome := mkHome "home-1" "1.0" None None None "{}".
Definition home_v2 : HmIPHome := mkHome "home-1" "2.0" None None None "{}".

Definition shutter : HmIPDevice :=
  mkDevice "d1" "FULL_FLUSH_SHUTTER" "Shutter" "HmIP-FROLL" "{}".
Definition shutter_moved : HmIPDevice :=
  mkDevice "d1" "FULL_FLUSH_SHUTTER" "Shutter" "HmIP-FROLL" "{level: 0.5}".
Definition plug : HmIPDevice :=
  mkDevice "d2" "PLUGABLE_SWITCH" "Plug" "HmIP-PS" "{}".
Definition thermostat : HmIPDevice :=
  mkDevice "d3" "WALL_MOUNTED_THERMOSTAT_PRO" "Thermostat" "HmIP-WTH-2" "{}".
Definition stranger : HmIPDevice :=
  mkDevice "d9" "FULL_FLUSH_SHUTTER" "Stranger" "HmIP-FROLL" "{}".



Definition heating : HmIPGroup := mkGroup "g1" "{HEATING}".
Definition proto_group : HmIPGroup := mkGroup "__proto__" "{}".
Definition heating_renamed : HmIPGroup := mkGroup "g1" "{HEATING, renamed}".


Definition snapshot : HmIPState :=
  mkState home_v1 ∅ [("d1", shutter); ("d2", plug); ("d3", thermostat)] None.

(** The platform once discovery has run on [snapshot]. *)
Definition discovered : Platform :=
  state_of (discoverDevices generate stringify_device true snapshot new_platform).

(** A platform to which homebridge restored the shutter's accessory. *)
Definition restored : Platform :=
  state_of (configureAccessory (mkAccessory (generate "d1") "Shutter" None) new_platform).

Definition device_event (ty : string) (d : HmIPDevice) : HmIPEvent :=
  mkEvent ty None (Some d) None.
Definition group_event (ty : string) (g : HmIPGroup) : HmIPEvent :=
  mkEvent ty (Some g) None None.
Definition home_event (h : HmIPHome) : HmIPEvent :=
  mkEvent "HOME_CHANGED" None None (Some h).

Definition feed : list HmIPStateChange :=
  [ [("0", group_event "GROUP_ADDED" heating); ("1", home_event home_v2)];
    [("0", device_event "DEVICE_REMOVED" shutter)];
    [("0", device_event "DEVICE_ADDED" stranger)] ].

End Sample.

(** * Properties *)

(** ** Insertion-ordered maps *)

Section OMapFacts.
Context {V : Type}.
Implicit Types (m : list (string * V)) (k : string) (v : V).

Lemma omap_get_set_eq k v m : OMap.get k (OMap.set k v m) = Some v.
Proof.
  induction m as [|[k' v'] m IH]; simpl.
  - now rewrite String.eqb_refl.
  - destruct (String.eqb k' k) eqn:E; simpl; now rewrite E.
Qed.

Lemma omap_get_set_ne k k' v m :
  k <> k' -> OMap.get k' (OMap.set k v m) = OMap.get k' m.
Proof.
  intros Hne. induction m as [|[k0 v0] m IH]; simpl.
  - destruct (String.eqb k k') eqn:E; [apply String.eqb_eq in E; congruence | reflexivity].
  - destruct (String.eqb k0 k) eqn:E; simpl.
    + apply String.eqb_eq in E. subst k0.
      destruct (String.eqb k k') eqn:E'; [apply String.eqb_eq in E'; congruence | reflexivity].
    + now rewrite IH.
Qed.

Lemma omap_get_delete_eq k m : OMap.get k (OMap.delete k m) = None.
Proof.
  induction m as [|[k' v'] m IH]; simpl; [reflexivity|].
  destruct (String.eqb k' k) eqn:E; simpl; [assumption | now rewrite E].
Qed.

Lemma omap_get_delete_ne k k' m :
  k <> k' -> OMap.get k' (OMap.delete k m) = OMap.get k' m.
Proof.
  intros Hne. induction m as [|[k0 v0] m IH]; simpl; [reflexivity|].
  destruct (String.eqb k0 k) eqn:E; simpl.
  - apply String.eqb_eq in E. subst k0.
    destruct (String.eqb k k') eqn:E'; [apply String.eqb_eq in E'; congruence | assumption].
  - now rewrite IH.
Qed.

Lemma omap_get_In k v m : OMap.get k m = Some v -> In (k, v) m.
Proof.
  induction m as [|[k' v'] m IH]; simpl; [discriminate|].
  destruct (String.eqb k' k) eqn:E.
  - apply String.eqb_eq in E. intros [= ->]. left; congruence.
  - intros H. right. auto.
Qed.

Lemma omap_get_None_keys k m : OMap.get k m = None <-> ~ In k (OMap.keys m).
Proof.
  induction m as [|[k' v'] m IH]; simpl; [tauto|].
  destruct (String.eqb k' k) eqn:E.
  - apply String.eqb_eq in E. split; [discriminate | intros H; exfalso; apply H; now left].
  - apply String.eqb_neq in E. rewrite IH. tauto.
Qed.

Lemma omap_get_keys k m : In k (OMap.keys m) -> is_Some (OMap.get k m).
Proof.
  intros Hin. destruct (OMap.get k m) eqn:E; [eauto|].
  apply omap_get_None_keys in E. contradiction.
Qed.

Lemma omap_In_set k v m k0 v0 :
  In (k0, v0) (OMap.set k v m) -> (k0 = k /\ v0 = v) \/ In (k0, v0) m.
Proof.
  induction m as [|[k' v'] m IH]; simpl.
  - intros [[= <- <-]|[]]. now left.
  - destruct (String.eqb k' k) eqn:E; simpl.
    + apply String.eqb_eq in E. subst k'.
      intros [[= <- <-]|H]; [now left | right; now right].
    + intros [H|H]; [right; now left|].
      destruct (IH H) as [?|?]; [now left | right; now right].
Qed.

Lemma omap_keys_set_present k v m :
  In k (OMap.keys m) -> OMap.keys (OMap.set k v m) = OMap.keys m.
Proof.
  induction m as [|[k' v'] m IH]; simpl; [tauto|].
  destruct (String.eqb k' k) eqn:E; simpl; [reflexivity|].
  apply String.eqb_neq in E. intros [H|H]; [congruence|]. now rewrite IH.
Qed.

Lemma omap_keys_set_absent k v m :
  ~ In k (OMap.keys m) -> OMap.keys (OMap.set k v m) = OMap.keys m ++ [k].
Proof.
  induction m as [|[k' v'] m IH]; simpl; [reflexivity|].
  intros H. destruct (String.eqb k' k) eqn:E; simpl.
  - apply String.eqb_eq in E. tauto.
  - rewrite IH; [reflexivity | tauto].
Qed.


Lemma omap_In_delete k m k0 v0 :
  In (k0, v0) (OMap.delete k m) -> In (k0, v0) m /\ k0 <> k.
Proof.
  induction m as [|[k' v'] m IH]; simpl; [tauto|].
  destruct (String.eqb k' k) eqn:E; simpl.
  - intros H. destruct (IH H). split; [now right | assumption].
  - apply String.eqb_neq in E. intros [[= <- <-]|H]; [split; [now left | assumption]|].
    destruct (IH H). split; [now right | assumption].
Qed.

Lemma omap_NoDup_delete k m :
  List.NoDup (OMap.keys m) -> List.NoDup (OMap.keys (OMap.delete k m)).
Proof.
  induction m as [|[k' v'] m IH]; simpl; [trivial|].
  intros Hnd. apply List.NoDup_cons_iff in Hnd as [Hn Hnd].
  destruct (String.eqb k' k) eqn:E; simpl; [auto|].
  apply List.NoDup_cons; [|auto].
  intros Hin. apply Hn. apply in_map_iff in Hin as [[k0 v0] [Hk Hin]].
  simpl in Hk. subst k0. apply omap_In_delete in Hin as [Hin _].
  apply in_map_iff. exists (k', v0). auto.
Qed.

Lemma omap_not_In_delete k m : ~ In k (OMap.keys (OMap.delete k m)).
Proof. apply omap_get_None_keys, omap_get_delete_eq. Qed.

End OMapFacts.

(** ** State and trace reasoning *)

Section MonadFacts.
Context {A B : Type}.

Lemma bind_state (c : M A) (k : A -> M B) p :
  state_of (bind c k p) = state_of (k (value_of (c p)) (state_of (c p))).
Proof. reflexivity. Qed.

Lemma bind_trace (c : M A) (k : A -> M B) p :
  trace_of (bind c k p)
  = trace_of (c p) ++ trace_of (k (value_of (c p)) (state_of (c p))).
Proof. reflexivity. Qed.

Lemma bind_value (c : M A) (k : A -> M B) p :
  value_of (bind c k p) = value_of (k (value_of (c p)) (state_of (c p))).
Proof. reflexivity. Qed.
End MonadFacts.

Lemma preserves_ret {A} I (a : A) : preserves I (ret a).
Proof. intros p H. exact H. Qed.

Lemma preserves_emit I e : preserves I (emit e).
Proof. intros p H. exact H. Qed.

Lemma preserves_gets {A} I (f : Platform -> A) : preserves I (gets f).
Proof. intros p H. exact H. Qed.

Lemma preserves_bind {A B} I (c : M A) (k : A -> M B) :
  preserves I c -> (forall a, preserves I (k a)) -> preserves I (bind c k).
Proof. intros Hc Hk p H. rewrite bind_state. apply Hk, Hc, H. Qed.

Lemma preserves_forM {A} I (l : list A) (body : A -> M unit) :
  (forall x, preserves I (body x)) -> preserves I (forM_ l body).
Proof.
  intros Hb. induction l as [|x l IH]; simpl.
  - apply preserves_ret.
  - apply preserves_bind; [apply Hb | intros _; exact IH].
Qed.

Section Properties.

Variable generate : string -> string.
Variable stringify_device : HmIPDevice -> string.
Variable stringify_home : HmIPHome -> string.

(** *** Session initialisation failure *)

(** C4: when [connector.init()] answers false, [discoverDevices] returns
    with the store untouched; the only call made is the initialisation
    itself, so the snapshot is not fetched and the feed is not subscribed. *)
Theorem discoverDevices_init_failed snapshot p :
  let r := discoverDevices generate stringify_device false snapshot p in
  state_of r = p
  /\ trace_of r = [ConnectorInit]
  /\ ~ In (ApiCall "home/getCurrentState") (trace_of r)
  /\ ~ In ConnectWs (trace_of r).
Proof.
  simpl. repeat split; try reflexivity.
  - intros [H|[]]. discriminate.
  - intros [H|[]]. discriminate.
Qed.

(** *** Events on unknown devices *)

(** C5: a device-changed, device-added or device-removed event for an
    identity that is not in [deviceMap] leaves the whole store as it was and
    only logs: the debug line of the event and the warning
    [Cannot find device: <id>]. *)
Theorem unknown_device_event_skipped event d p :
  In (pushEventType event) ["DEVICE_CHANGED"; "DEVICE_ADDED"; "DEVICE_REMOVED"] ->
  ev_device event = Some d ->
  OMap.get (device_id d) (deviceMap p) = None ->
  let r := handle_event stringify_home event p in
  state_of r = p
  /\ trace_of r =
       [Log Debug [pushEventType event +:+ ": " +:+ device_id d +:+ " " +:+ modelType d];
        Log Warn ["Cannot find device: " +:+ device_id d]]
  /\ List.filter is_register (trace_of r) = []
  /\ List.filter is_unregister (trace_of r) = [].
Proof.
  intros Hty Hd Hget.
  assert (Hr : handle_event stringify_home event p =
    (tt, p, [Log Debug [pushEventType event +:+ ": " +:+ device_id d +:+ " " +:+ modelType d];
             Log Warn ["Cannot find device: " +:+ device_id d]])).
  { unfold handle_event. rewrite Hd.
    simpl in Hty. destruct Hty as [E|[E|[E|[]]]]; rewrite <- E; simpl;
      unfold bind, gets, emit, OMap.has, value_of, state_of, trace_of; simpl;
      rewrite Hget; reflexivity. }
  simpl. rewrite Hr. repeat split; reflexivity.
Qed.

(** *** Removal of a bound device *)

Lemma this_groups_Some p gs :
  this_groups p = Some gs ->
  exists s, hmIPState p = Some s /\ groups p = GroupsOfSnapshot /\ st_groups s = gs.
Proof.
  unfold this_groups. destruct (groups p); [discriminate|].
  destruct (hmIPState p) as [s|]; simpl; [|discriminate].
  intros [= <-]. eauto.
Qed.

(** C3: a device-removed event for an identity bound in [deviceMap] removes
    the identity from [deviceMap] and from [hmIPState.devices], and makes
    exactly one [unregisterPlatformAccessories] call, for the accessory of
    the handle that was bound. *)
Theorem device_removed_known event d dev s p :
  pushEventType event = "DEVICE_REMOVED" ->
  ev_device event = Some d ->
  OMap.get (device_id d) (deviceMap p) = Some dev ->
  hmIPState p = Some s ->
  let r := handle_event stringify_home event p in
  OMap.get (device_id d) (deviceMap (state_of r)) = None
  /\ ~ In (device_id d) (OMap.keys (deviceMap (state_of r)))
  /\ (exists s', hmIPState (state_of r) = Some s'
                 /\ OMap.get (device_id d) (st_devices s') = None
                 /\ ~ In (device_id d) (OMap.keys (st_devices s')))
  /\ List.filter is_unregister (trace_of r) = [Unregister [dev_accessory dev]].
Proof.
  intros Hty Hd Hget Hs.
  unfold handle_event. rewrite Hd, Hty. simpl.
  unfold bind, gets, emit, modify, value_of, state_of, trace_of; simpl.
  rewrite Hget; simpl. unfold update_hmIPState; simpl. rewrite Hs; simpl.
  split; [apply omap_get_delete_eq|].
  split; [apply omap_not_In_delete|].
  split; [|reflexivity].
  eexists. split; [reflexivity|]. simpl.
  split; [apply omap_get_delete_eq | apply omap_not_In_delete].
Qed.

(** *** Group events *)

Lemma groups_assign_own k v s :
  hits_proto_setter k (st_groups s) = false ->
  groups_assign k v s = with_st_groups (<[k := v]> (st_groups s)) s.
Proof. intros H. unfold groups_assign. now rewrite H. Qed.

Lemma hits_proto_setter_insert k v (own : gmap string HmIPGroup) :
  hits_proto_setter k (<[k := v]> own) = false.
Proof. unfold hits_proto_setter. now rewrite lookup_insert_eq. Qed.

(** Writing through [hmIPState.groups] and then through [this.groups] is
    writing the same object twice. *)
Lemma groups_assign_twice k v s :
  groups_assign k v (groups_assign k v s) = groups_assign k v s.
Proof.
  unfold groups_assign. destruct (hits_proto_setter k (st_groups s)) eqn:E.
  - cbn [st_groups st_home st_devices]. now rewrite E.
  - cbn [with_st_groups st_groups st_home st_devices st_groups_proto].
    now rewrite hits_proto_setter_insert, insert_insert_eq.
Qed.

Lemma groups_delete_twice k s : groups_delete k (groups_delete k s) = groups_delete k s.
Proof.
  unfold groups_delete, with_st_groups.
  cbn [st_groups st_home st_devices st_groups_proto]. now rewrite delete_delete_eq.
Qed.

(** What a group event with a payload makes of the store. *)
Lemma group_event_state event g p :
  ev_group event = Some g ->
  groups p = GroupsOfSnapshot ->
  (In (pushEventType event) ["GROUP_CHANGED"; "GROUP_ADDED"] ->
   state_of (handle_event stringify_home event p)
   = update_hmIPState (groups_assign (group_id g) g) p)
  /\ (pushEventType event = "GROUP_REMOVED" ->
      state_of (handle_event stringify_home event p)
      = update_hmIPState (groups_delete (group_id g)) p).
Proof.
  intros Hg Href.
  assert (Hfold : forall f, (forall s, f (f s) = f s) ->
            update_this_groups f (update_hmIPState f p) = update_hmIPState f p).
  { intros f Hf. unfold update_this_groups, update_hmIPState, set_hmIPState.
    cbn [groups hmIPState heap accessories home deviceMap]. rewrite Href.
    destruct (hmIPState p); simpl; [now rewrite Hf | reflexivity]. }
  split.
  - intros Hty. unfold handle_event. rewrite Hg.
    simpl in Hty. destruct Hty as [E|[E|[]]]; rewrite <- E; simpl;
      unfold bind, emit, modify, value_of, state_of, trace_of; simpl;
      apply Hfold, groups_assign_twice.
  - intros Hty. unfold handle_event. rewrite Hg, Hty. simpl.
    unfold bind, emit, modify, value_of, state_of, trace_of; simpl.
    apply Hfold, groups_delete_twice.
Qed.

Lemma group_upsert_store event g gs p :
  In (pushEventType event) ["GROUP_CHANGED"; "GROUP_ADDED"] ->
  ev_group event = Some g ->
  this_groups p = Some gs ->
  hits_proto_setter (group_id g) gs = false ->
  this_groups (state_of (handle_event stringify_home event p))
  = Some (<[group_id g := g]> gs).
Proof.
  intros Hty Hg Hgs Hown. apply this_groups_Some in Hgs as (s & Hs & Href & <-).
  destruct (group_event_state event g p Hg Href) as [Hst _]. rewrite (Hst Hty).
  unfold this_groups, update_hmIPState. cbn [groups hmIPState set_hmIPState].
  rewrite Href, Hs. cbn [fmap option_fmap option_map].
  now rewrite groups_assign_own.
Qed.

Lemma group_remove_store event g gs p :
  pushEventType event = "GROUP_REMOVED" ->
  ev_group event = Some g ->
  this_groups p = Some gs ->
  this_groups (state_of (handle_event stringify_home event p))
  = Some (delete (group_id g) gs).
Proof.
  intros Hty Hg Hgs. apply this_groups_Some in Hgs as (s & Hs & Href & <-).
  destruct (group_event_state event g p Hg Href) as [_ Hst]. rewrite (Hst Hty).
  unfold this_groups, update_hmIPState. cbn [groups hmIPState set_hmIPState].
  now rewrite Href, Hs.
Qed.

(** C9, as the code has it: the group store is a plain object.  A
    group-changed or group-added event stores its payload under the group's
    identity and touches no other identity, provided the assignment lands on
    an own property, that is, unless the identity is [__proto__] and the
    store has no own property of that name.  Of two such events for one
    identity the store keeps the second payload, exactly as if the first had
    never arrived.  A group-removed event, for any identity, deletes the
    entry, so a lookup of the identity finds nothing afterwards. *)
Theorem group_events_update_store e1 e2 e3 g1 g2 g3 gs p :
  this_groups p = Some gs ->
  In (pushEventType e1) ["GROUP_CHANGED"; "GROUP_ADDED"] -> ev_group e1 = Some g1 ->
  hits_proto_setter (group_id g1) gs = false ->
  In (pushEventType e2) ["GROUP_CHANGED"; "GROUP_ADDED"] -> ev_group e2 = Some g2 ->
  group_id g2 = group_id g1 ->
  pushEventType e3 = "GROUP_REMOVED" -> ev_group e3 = Some g3 ->
  let p1 := state_of (handle_event stringify_home e1 p) in
  let p2 := state_of (handle_event stringify_home e2 p1) in
  let p3 := state_of (handle_event stringify_home e3 p) in
  (exists gs1, this_groups p1 = Some gs1
               /\ gs1 !! group_id g1 = Some g1
               /\ forall k, k <> group_id g1 -> gs1 !! k = gs !! k)
  /\ (exists gs2, this_groups p2 = Some gs2
                  /\ gs2 !! group_id g1 = Some g2
                  /\ gs2 = <[group_id g2 := g2]> gs)
  /\ (exists gs3, this_groups p3 = Some gs3
                  /\ gs3 !! group_id g3 = None
                  /\ (group_id g3 ∉ dom gs3)
                  /\ forall k, k <> group_id g3 -> gs3 !! k = gs !! k).
Proof.
  intros Hgs H1 Hg1 Hown H2 Hg2 Hid H3 Hg3. simpl.
  pose proof (group_upsert_store e1 g1 gs p H1 Hg1 Hgs Hown) as Hp1.
  assert (Hown2 : hits_proto_setter (group_id g2) (<[group_id g1 := g1]> gs) = false).
  { rewrite Hid. apply hits_proto_setter_insert. }
  pose proof (group_upsert_store e2 g2 _ _ H2 Hg2 Hp1 Hown2) as Hp2.
  pose proof (group_remove_store e3 g3 gs p H3 Hg3 Hgs) as Hp3.
  split; [|split].
  - eexists. split; [exact Hp1|]. split.
    + apply lookup_insert_eq.
    + intros k Hk. now apply lookup_insert_ne.
  - eexists. split; [exact Hp2|]. rewrite Hid. split.
    + apply lookup_insert_eq.
    + apply insert_insert_eq.
  - eexists. split; [exact Hp3|]. split; [apply lookup_delete_eq|]. split.
    + apply not_elem_of_dom, lookup_delete_eq.
    + intros k Hk. now apply lookup_delete_ne.
Qed.

(** *** Accessory resolution *)

Lemma createAccessory_cached uuid name c p l :
  List.find (uuid_is (heap p) uuid) (accessories p) = Some l ->
  createAccessory uuid name c p
  = (mkHmIPAccessory l true,
     set_heap (alter (with_context c) l (heap p)) p,
     []).
Proof.
  intros Hf. unfold createAccessory, getAccessory.
  unfold bind, gets, modify, ret, value_of, state_of, trace_of; simpl.
  rewrite Hf; simpl. reflexivity.
Qed.

Lemma createAccessory_fresh uuid name c p :
  List.find (uuid_is (heap p) uuid) (accessories p) = None ->
  createAccessory uuid name c p
  = (mkHmIPAccessory (length (heap p)) false,
     set_heap (heap p ++ [mkAccessory uuid name (Some c)]) p,
     [Log Debug ["Could not find existing accessory in pool: "
                 +:+ join ", " (map (fun _ => "[object Object]") (accessories p))];
      NewPlatformAccessory name uuid (length (heap p))]).
Proof.
  intros Hf. unfold createAccessory, getAccessory, new_platformAccessory, alloc.
  unfold bind, gets, modify, emit, ret, value_of, state_of, trace_of; simpl.
  rewrite Hf; simpl. unfold set_heap; simpl.
  rewrite alter_app_r_alt by lia. rewrite Nat.sub_diag. reflexivity.
Qed.

Lemma uuid_is_Some h uuid l :
  uuid_is h uuid l = true -> exists a, h !! l = Some a /\ UUID a = uuid.
Proof.
  unfold uuid_is. destruct (h !! l) as [a|]; [|discriminate].
  intros E. apply String.eqb_eq in E. eauto.
Qed.

Lemma lookup_alter_context c (l : loc) (h : list PlatformAccessory) (l' : loc) :
  alter (with_context c) l h !! l' =
  (if decide (l = l') then with_context c else id) <$> h !! l'.
Proof.
  destruct (decide (l = l')) as [->|Hne].
  - apply list_lookup_alter_eq.
  - rewrite list_lookup_alter_ne by assumption. symmetry. apply option_fmap_id.
Qed.

Lemma uuid_is_alter_context c (l : loc) (h : list PlatformAccessory) uuid (l' : loc) :
  uuid_is (alter (with_context c) l h) uuid l' = uuid_is h uuid l'.
Proof.
  unfold uuid_is. rewrite lookup_alter_context.
  destruct (h !! l') as [a|]; simpl; [|reflexivity].
  now destruct (decide (l = l')).
Qed.

Lemma find_alter_context c (l : loc) (h : list PlatformAccessory) uuid pool :
  List.find (uuid_is (alter (with_context c) l h) uuid) pool
  = List.find (uuid_is h uuid) pool.
Proof.
  induction pool as [|x pool IH]; simpl; [reflexivity|].
  now rewrite uuid_is_alter_context, IH.
Qed.

Lemma uuid_is_app_valid (h : list PlatformAccessory) a u (l : loc) :
  l < length h -> uuid_is (h ++ [a]) u l = uuid_is h u l.
Proof. intros Hl. unfold uuid_is. now rewrite lookup_app_l. Qed.

Lemma find_uuid_is_app (h : list PlatformAccessory) a u pool :
  (forall l, In l pool -> l < length h) ->
  List.find (uuid_is (h ++ [a]) u) pool = List.find (uuid_is h u) pool.
Proof.
  induction pool as [|x pool IH]; intros Hv; [reflexivity|]. cbn [List.find].
  rewrite uuid_is_app_valid by (apply Hv; now left).
  rewrite IH; [reflexivity|]. intros l Hl. apply Hv. now right.
Qed.

(** C8, as the code has it: resolution never registers and never changes
    the pool of restored accessories.  For an identity found in that pool,
    two resolutions with different contexts return the same cached
    accessory, flagged as pre-existing, construct nothing, and leave the
    latest context on it.  For an identity not in the pool, a resolution
    constructs a new accessory with the given display name and identity,
    stores the context on it and flags it as not pre-existing; as the pool
    is not extended, a second resolution (the pool referring to existing
    accessories) constructs another accessory beside the first, which keeps
    the context it was given. *)
Theorem createAccessory_resolution uuid n1 n2 c1 c2 p :
  let r1 := createAccessory uuid n1 c1 p in
  let r2 := createAccessory uuid n2 c2 (state_of r1) in
  List.filter is_register (trace_of r1 ++ trace_of r2) = []
  /\ accessories (state_of r1) = accessories p
  /\ accessories (state_of r2) = accessories p
  /\ match List.find (uuid_is (heap p) uuid) (accessories p) with
     | Some l =>
         value_of r1 = mkHmIPAccessory l true
         /\ value_of r2 = mkHmIPAccessory l true
         /\ trace_of r1 ++ trace_of r2 = []
         /\ length (heap (state_of r2)) = length (heap p)
         /\ (exists a, heap p !! l = Some a /\ UUID a = uuid
                       /\ heap (state_of r1) !! l = Some (with_context c1 a)
                       /\ heap (state_of r2) !! l = Some (with_context c2 a))
     | None =>
         value_of r1 = mkHmIPAccessory (length (heap p)) false
         /\ heap (state_of r1) = heap p ++ [mkAccessory uuid n1 (Some c1)]
         /\ List.filter is_new_accessory (trace_of r1)
            = [NewPlatformAccessory n1 uuid (length (heap p))]
         /\ ((forall l, In l (accessories p) -> l < length (heap p)) ->
             value_of r2 = mkHmIPAccessory (S (length (heap p))) false
             /\ heap (state_of r2)
                = heap p ++ [mkAccessory uuid n1 (Some c1); mkAccessory uuid n2 (Some c2)]
             /\ List.filter is_new_accessory (trace_of r2)
                = [NewPlatformAccessory n2 uuid (S (length (heap p)))])
     end.
Proof.
  cbv zeta. destruct (List.find (uuid_is (heap p) uuid) (accessories p)) as [l|] eqn:Hf.
  - rewrite (createAccessory_cached _ n1 c1 _ _ Hf).
    cbn [state_of value_of trace_of fst snd].
    rewrite (createAccessory_cached uuid n2 c2 _ l)
      by (simpl; now rewrite find_alter_context).
    cbn [state_of value_of trace_of fst snd heap accessories set_heap app].
    repeat split; try reflexivity.
    + now rewrite !length_alter.
    + apply List.find_some in Hf as [_ Hu].
      apply uuid_is_Some in Hu as (a & Ha & Hu).
      exists a. repeat split; try assumption.
      * now rewrite list_lookup_alter_eq, Ha.
      * now rewrite !list_lookup_alter_eq, Ha.
  - rewrite (createAccessory_fresh _ n1 c1 _ Hf).
    cbn [state_of value_of trace_of fst snd].
    destruct (List.find (uuid_is (heap p ++ [mkAccessory uuid n1 (Some c1)]) uuid)
                        (accessories p)) as [l|] eqn:Hf2.
    + rewrite (createAccessory_cached uuid n2 c2
                 (set_heap (heap p ++ [mkAccessory uuid n1 (Some c1)]) p) l)
        by (cbn [heap accessories set_heap]; exact Hf2).
      cbn [state_of value_of trace_of fst snd heap accessories set_heap].
      repeat split; try reflexivity;
        rewrite find_uuid_is_app in Hf2 by assumption; congruence.
    + rewrite (createAccessory_fresh uuid n2 c2
                 (set_heap (heap p ++ [mkAccessory uuid n1 (Some c1)]) p))
        by (cbn [heap accessories set_heap]; exact Hf2).
      cbn [state_of value_of trace_of fst snd heap accessories set_heap].
      rewrite length_app, <- app_assoc. cbn [length app]. rewrite Nat.add_1_r.
      repeat split; reflexivity.
Qed.


(** *** Binding one device of the snapshot *)

Lemma kind_of_type_supported ty :
  supported_type ty = match kind_of_type ty with Some _ => true | None => false end.
Proof.
  unfold supported_type, kind_of_type.
  now destruct (String.eqb ty "WALL_MOUNTED_THERMOSTAT_PRO"),
               (String.eqb ty "FULL_FLUSH_SHUTTER"),
               (String.eqb ty "HOME_CONTROL_ACCESS_POINT").
Qed.

Lemma kind_of_type_unsupported ty :
  supported_type ty = false -> kind_of_type ty = None.
Proof. rewrite kind_of_type_supported. now destruct (kind_of_type ty). Qed.

(** What [updateAccessory] does, in terms of the resolution it starts with. *)
Lemma updateAccessory_eq id h device q :
  updateAccessory generate stringify_device id h device q =
  let c := createAccessory (generate id) (label device) (CtxDevice device) q in
  let acc := accessory (value_of c) in
  match kind_of_type (device_type device) with
  | Some k =>
      (tt,
       set_deviceMap (OMap.set id (mkHandle k h acc) (deviceMap (state_of c))) (state_of c),
       trace_of c
       ++ match k with
          | HomeControlAccessPoint => [Log Debug ["Creating: " +:+ stringify_device device]]
          | _ => []
          end
       ++ [NewDevice k h acc; Register acc (isFromCache (value_of c))])
  | None =>
      (tt, state_of c,
       trace_of c ++ [Log Warn ["Device not implemented: " +:+ modelType device
                                +:+ " - " +:+ label device]])
  end.
Proof.
  unfold updateAccessory, kind_of_type, new_device. cbv zeta.
  destruct (createAccessory (generate id) (label device) (CtxDevice device) q)
    as [[v st] tr] eqn:Hc.
  unfold bind at 1. rewrite Hc. cbn [value_of state_of trace_of fst snd].
  destruct (String.eqb (device_type device) "WALL_MOUNTED_THERMOSTAT_PRO");
    [reflexivity|].
  destruct (String.eqb (device_type device) "FULL_FLUSH_SHUTTER");
    [reflexivity|].
  destruct (String.eqb (device_type device) "HOME_CONTROL_ACCESS_POINT");
    reflexivity.
Qed.

Lemma createAccessory_frame uuid name c p :
  let p' := state_of (createAccessory uuid name c p) in
  accessories p' = accessories p /\ groups p' = groups p /\ home p' = home p
  /\ deviceMap p' = deviceMap p /\ hmIPState p' = hmIPState p.
Proof.
  cbv zeta. destruct (List.find (uuid_is (heap p) uuid) (accessories p)) as [l|] eqn:Hf.
  - rewrite (createAccessory_cached _ _ _ _ _ Hf). now repeat split.
  - rewrite (createAccessory_fresh _ _ _ _ Hf). now repeat split.
Qed.

Lemma createAccessory_no_register uuid name c p :
  List.filter is_register (trace_of (createAccessory uuid name c p)) = [].
Proof.
  destruct (List.find (uuid_is (heap p) uuid) (accessories p)) as [l|] eqn:Hf.
  - now rewrite (createAccessory_cached _ _ _ _ _ Hf).
  - now rewrite (createAccessory_fresh _ _ _ _ Hf).
Qed.

(** The accessory a resolution returns carries the identity asked for and
    the context given. *)
Lemma createAccessory_result uuid name c p :
  let r := createAccessory uuid name c p in
  exists a, heap (state_of r) !! accessory (value_of r) = Some a
            /\ UUID a = uuid /\ context_device a = Some c.
Proof.
  cbv zeta. destruct (List.find (uuid_is (heap p) uuid) (accessories p)) as [l|] eqn:Hf.
  - rewrite (createAccessory_cached _ _ _ _ _ Hf).
    cbn [state_of value_of fst snd heap set_heap accessory].
    apply List.find_some in Hf as [_ Hu].
    apply uuid_is_Some in Hu as (a & Ha & Hu).
    exists (with_context c a). rewrite list_lookup_alter_eq, Ha. now repeat split.
  - rewrite (createAccessory_fresh _ _ _ _ Hf).
    cbn [state_of value_of fst snd heap set_heap accessory].
    eexists. split; [now apply list_lookup_middle|]. now split.
Qed.

(** C10: [updateAccessory] resolves the accessory before it looks at the
    declared type.  For an unsupported type the store it leaves is exactly
    the store the resolution leaves, and the resolution's effects precede
    the warning: the accessory of that identity (the cached one, or one
    constructed on the spot with the device's label) holds the skipped
    device as its context. *)
Theorem unsupported_device_still_resolved id h device p :
  supported_type (device_type device) = false ->
  let r := updateAccessory generate stringify_device id h device p in
  let c := createAccessory (generate id) (label device) (CtxDevice device) p in
  state_of r = state_of c
  /\ trace_of r = trace_of c ++ [Log Warn ["Device not implemented: " +:+ modelType device
                                           +:+ " - " +:+ label device]]
  /\ (exists a, heap (state_of r) !! accessory (value_of c) = Some a
                /\ UUID a = generate id
                /\ context_device a = Some (CtxDevice device))
  /\ match List.find (uuid_is (heap p) (generate id)) (accessories p) with
     | Some l =>
         accessory (value_of c) = l
         /\ heap (state_of r) = alter (with_context (CtxDevice device)) l (heap p)
     | None =>
         accessory (value_of c) = length (heap p)
         /\ heap (state_of r)
            = heap p ++ [mkAccessory (generate id) (label device) (Some (CtxDevice device))]
         /\ In (NewPlatformAccessory (label device) (generate id) (length (heap p)))
               (trace_of r)
     end.
Proof.
  intros Hty. cbv zeta. rewrite updateAccessory_eq. cbv zeta.
  rewrite (kind_of_type_unsupported _ Hty).
  cbn [state_of value_of trace_of fst snd].
  split; [reflexivity|]. split; [reflexivity|].
  split; [apply createAccessory_result|].
  destruct (List.find (uuid_is (heap p) (generate id)) (accessories p)) as [l|] eqn:Hf.
  - rewrite (createAccessory_cached _ _ _ _ _ Hf). now split.
  - rewrite (createAccessory_fresh _ _ _ _ Hf).
    split; [reflexivity|]. split; [reflexivity|]. simpl. auto.
Qed.

(** *** The snapshot pass *)

Lemma setHome_eq h p : setHome h p = (normalized h, p, []).
Proof. reflexivity. Qed.

Lemma discoverDevices_eq snapshot p :
  discoverDevices generate stringify_device true snapshot p =
  let p0 := update_hmIPState (with_st_home (normalized (st_home snapshot)))
              (set_groups GroupsOfSnapshot (set_hmIPState (Some snapshot) p)) in
  let pass := forM_ (OMap.keys (st_devices snapshot)) (fun id =>
                match OMap.get id (st_devices snapshot) with
                | Some device =>
                    let* h := gets home in
                    updateAccessory generate stringify_device id h device
                | None => ret tt
                end) p0 in
  (tt, state_of pass,
   [ConnectorInit; ApiCall "home/getCurrentState"] ++ trace_of pass ++ [ConnectWs]).
Proof. reflexivity. Qed.

Lemma updateAccessory_deviceMap id h device q :
  deviceMap (state_of (updateAccessory generate stringify_device id h device q)) =
  match kind_of_type (device_type device) with
  | Some k =>
      OMap.set id
        (mkHandle k h (accessory (value_of (createAccessory (generate id) (label device)
                                                            (CtxDevice device) q))))
        (deviceMap q)
  | None => deviceMap q
  end.
Proof.
  rewrite updateAccessory_eq. cbv zeta.
  pose proof (createAccessory_frame (generate id) (label device) (CtxDevice device) q)
    as (_ & _ & _ & Hm & _).
  destruct (kind_of_type (device_type device));
    cbn [state_of fst snd deviceMap set_deviceMap]; now rewrite Hm.
Qed.

Lemma updateAccessory_registers id h device q :
  List.filter is_register (trace_of (updateAccessory generate stringify_device id h device q)) =
  match kind_of_type (device_type device) with
  | Some k =>
      let c := createAccessory (generate id) (label device) (CtxDevice device) q in
      [Register (accessory (value_of c)) (isFromCache (value_of c))]
  | None => []
  end.
Proof.
  rewrite updateAccessory_eq. cbv zeta.
  destruct (kind_of_type (device_type device)) as [k|];
    cbn [trace_of snd]; rewrite !List.filter_app, createAccessory_no_register.
  - now destruct k.
  - reflexivity.
Qed.

Lemma pass_skips devs ids id device q :
  OMap.get id devs = Some device ->
  supported_type (device_type device) = false ->
  OMap.get id (deviceMap q) = None ->
  OMap.get id (deviceMap (state_of (forM_ ids (fun id =>
      match OMap.get id devs with
      | Some device =>
          let* h := gets home in
          updateAccessory generate stringify_device id h device
      | None => ret tt
      end) q))) = None.
Proof.
  intros Hd Hty. revert q. induction ids as [|k ids IH]; intros q Hq; [exact Hq|].
  cbn [forM_]. rewrite bind_state. apply IH.
  destruct (OMap.get k devs) as [dk|] eqn:Hk; [|exact Hq].
  rewrite bind_state. cbn [gets value_of state_of fst snd].
  rewrite updateAccessory_deviceMap.
  destruct (String.eqb k id) eqn:E.
  - apply String.eqb_eq in E. subst k. rewrite Hd in Hk. injection Hk as <-.
    now rewrite (kind_of_type_unsupported _ Hty).
  - apply String.eqb_neq in E.
    destruct (kind_of_type (device_type dk)); [|exact Hq].
    now rewrite omap_get_set_ne.
Qed.

Lemma pass_register_count devs ids q :
  length (List.filter is_register (trace_of (forM_ ids (fun id =>
      match OMap.get id devs with
      | Some device =>
          let* h := gets home in
          updateAccessory generate stringify_device id h device
      | None => ret tt
      end) q)))
  = length (List.filter (binds devs) ids).
Proof.
  revert q. induction ids as [|k ids IH]; intros q; [reflexivity|].
  cbn [forM_ List.filter]. rewrite bind_trace, List.filter_app, length_app, IH.
  unfold binds at 2.
  destruct (OMap.get k devs) as [dk|] eqn:Hk.
  - rewrite bind_trace. cbn [gets value_of state_of trace_of fst snd app].
    rewrite updateAccessory_registers, kind_of_type_supported.
    now destruct (kind_of_type (device_type dk)).
  - reflexivity.
Qed.

(** C6: a device of an unsupported declared type is logged and skipped.
    Wherever [updateAccessory] meets it, [deviceMap] stays as it is, no
    [register()] call is made, and the warning is logged.  Over the whole
    snapshot pass the identity ends up unbound, and the pass makes as many
    [register()] calls as the snapshot has devices of a supported type. *)
Theorem unsupported_device_skipped snapshot id device p :
  OMap.get id (st_devices snapshot) = Some device ->
  supported_type (device_type device) = false ->
  OMap.get id (deviceMap p) = None ->
  let pass := discoverDevices generate stringify_device true snapshot p in
  (forall q h,
      let r := updateAccessory generate stringify_device id h device q in
      deviceMap (state_of r) = deviceMap q
      /\ List.filter is_register (trace_of r) = []
      /\ In (Log Warn ["Device not implemented: " +:+ modelType device
                       +:+ " - " +:+ label device]) (trace_of r))
  /\ OMap.get id (deviceMap (state_of pass)) = None
  /\ ~ In id (OMap.keys (deviceMap (state_of pass)))
  /\ length (List.filter is_register (trace_of pass))
     = length (List.filter (binds (st_devices snapshot)) (OMap.keys (st_devices snapshot))).
Proof.
  intros Hd Hty Hp. cbv zeta.
  assert (Hpass : OMap.get id (deviceMap
                    (state_of (discoverDevices generate stringify_device true snapshot p)))
                  = None).
  { rewrite discoverDevices_eq. cbv zeta. cbn [state_of fst snd].
    now apply (pass_skips _ _ _ device). }
  split; [|split; [exact Hpass | split]].
  - intros q h.
    rewrite updateAccessory_deviceMap, updateAccessory_registers, updateAccessory_eq.
    cbv zeta. rewrite (kind_of_type_unsupported _ Hty). cbn [trace_of snd].
    split; [reflexivity|]. split; [reflexivity|].
    apply in_or_app. right. now left.
  - now apply omap_get_None_keys.
  - rewrite discoverDevices_eq. cbv zeta. cbn [trace_of snd].
    cbn [app List.filter is_register]. rewrite List.filter_app, length_app.
    cbn [List.filter is_register length]. rewrite Nat.add_0_r.
    apply pass_register_count.
Qed.

(** *** The binding table stays a table *)

Lemma preserves_modify I f :
  (forall p, I p -> I (f p)) -> preserves I (modify f).
Proof. intros Hf p H. now apply Hf. Qed.




Lemma createAccessory_uuid_stable uuid name c p (l : loc) u :
  UUID <$> heap p !! l = Some u ->
  UUID <$> heap (state_of (createAccessory uuid name c p)) !! l = Some u.
Proof.
  intros Hl. destruct (List.find (uuid_is (heap p) uuid) (accessories p)) as [l0|] eqn:Hf.
  - rewrite (createAccessory_cached _ _ _ _ _ Hf).
    cbn [state_of fst snd heap set_heap]. rewrite lookup_alter_context.
    destruct (heap p !! l) as [a|]; [|discriminate].
    simpl in *. now destruct (decide (l0 = l)).
  - rewrite (createAccessory_fresh _ _ _ _ Hf).
    cbn [state_of fst snd heap set_heap].
    destruct (heap p !! l) as [a|] eqn:Ha; [|discriminate].
    now rewrite (lookup_app_l_Some _ _ _ _ Ha).
Qed.






Ltac preserve_step :=
  lazymatch goal with
  | |- preserves _ (if ?b then _ else _) => destruct b
  | |- preserves _ (match ?o with Some _ => _ | None => _ end) => destruct o
  | |- preserves _ (setHome _) => apply preserves_ret
  | |- preserves _ (ret _) => apply preserves_ret
  | |- preserves _ (emit _) => apply preserves_emit
  | |- preserves _ (gets _) => apply preserves_gets
  | |- preserves _ (bind _ _) => apply preserves_bind; [|intros ?]
  | |- preserves _ (forM_ _ _) => apply preserves_forM; intros ?
  | |- preserves _ (modify _) => apply preserves_modify; intros ? ?
  end.








(** *** [this.home] *)

Lemma home_kept_updateAccessory v id h device :
  preserves (fun q => home q = v) (updateAccessory generate stringify_device id h device).
Proof.
  intros p Hp. rewrite updateAccessory_eq. cbv zeta.
  pose proof (createAccessory_frame (generate id) (label device) (CtxDevice device) p)
    as (_ & _ & Hh & _).
  destruct (kind_of_type (device_type device)); cbn [state_of fst snd];
    cbn [home set_deviceMap]; congruence.
Qed.

Lemma home_kept_update_this_groups f p : home (update_this_groups f p) = home p.
Proof. unfold update_this_groups. now destruct (groups p). Qed.

Lemma home_kept_handle_event v event :
  preserves (fun q => home q = v) (handle_event stringify_home event).
Proof.
  unfold handle_event. cbv zeta. repeat preserve_step;
    rewrite ?home_kept_update_this_groups; assumption.
Qed.

Lemma home_kept_discoverDevices v init_ok snapshot :
  preserves (fun q => home q = v)
    (discoverDevices generate stringify_device init_ok snapshot).
Proof.
  unfold discoverDevices.
  repeat first
    [ lazymatch goal with
      | |- preserves _ (updateAccessory _ _ _ _ _) => apply home_kept_updateAccessory
      end
    | preserve_step ]; assumption.
Qed.

(** No path of the platform assigns [this.home]: whatever the snapshot and
    the feed, the field keeps the value it had before discovery. *)
Lemma home_never_assigned init_ok snapshot feed p :
  home (state_of (run generate stringify_device stringify_home init_ok snapshot feed p))
  = home p.
Proof.
  assert (H : preserves (fun q => home q = home p)
                (run generate stringify_device stringify_home init_ok snapshot feed)).
  { unfold run. apply preserves_bind; [apply home_kept_discoverDevices|].
    intros _. destruct init_ok; [|apply preserves_ret].
    apply preserves_forM. intros m. apply preserves_forM. intros e.
    apply home_kept_handle_event. }
  now apply H.
Qed.

Lemma homeless_bind_device id device :
  preserves homeless
    (let* h := gets home in updateAccessory generate stringify_device id h device).
Proof.
  intros p [Hh Hd]. rewrite bind_state. cbn [gets value_of state_of fst snd].
  rewrite updateAccessory_eq. cbv zeta.
  pose proof (createAccessory_frame (generate id) (label device) (CtxDevice device) p)
    as (_ & _ & Hh' & Hm & _).
  destruct (kind_of_type (device_type device)); cbn [state_of fst snd]; split;
    cbn [home deviceMap set_deviceMap]; try congruence.
  - rewrite Hm. intros k dev Hin. apply omap_In_set in Hin as [[_ ->]|Hin].
    + cbn [dev_home]. exact Hh.
    + eauto.
  - rewrite Hm. exact Hd.
Qed.

(** Discovery on a fresh platform binds every handle with [undefined] in
    the place of the Home. *)
Lemma discoverDevices_homeless init_ok snapshot :
  preserves homeless (discoverDevices generate stringify_device init_ok snapshot).
Proof.
  unfold discoverDevices.
  repeat first
    [ lazymatch goal with
      | |- preserves _ (bind (gets home) _) => apply homeless_bind_device
      end
    | preserve_step ]; assumption.
Qed.

End Properties.

(** ** The sample installation *)

Section SampleRuns.
Import Sample.

(** C2: discovery on a fresh platform.  [setHome] normalises the Home of
    the snapshot but nothing stores it in [this.home]; the shutter and the
    thermostat are bound and registered, yet the handles are constructed
    with [undefined] where the Home belongs. *)
Theorem snapshot_handles_carry_no_home :
  let r := discoverDevices generate stringify_device true snapshot new_platform in
  st_home <$> hmIPState (state_of r) = Some (normalized home_v1)
  /\ home (state_of r) = None
  /\ deviceMap (state_of r)
     = [("d1", mkHandle Shutter None 0); ("d3", mkHandle Thermostat None 2)]
  /\ List.filter is_register (trace_of r) = [Register 0 false; Register 2 false]
  /\ In (NewDevice Shutter None 0) (trace_of r)
  /\ In (NewDevice Thermostat None 2) (trace_of r).
Proof.
  vm_compute. repeat split; try reflexivity.
  - do 4 right. now left.
  - do 11 right. now left.
Qed.

(** C1: a home-changed event after that discovery.  Every bound handle gets
    the normalised new Home stored and one [updateDevice] call; but
    [this.home] and [hmIPState.home] keep their old values, the call passes
    the handle itself where the Home belongs, and the next device-changed
    event still dispatches [undefined] as the Home. *)
Theorem home_changed_leaves_home_unset :
  let r := handle_event stringify_home (home_event home_v2) discovered in
  let shutter' := mkHandle Shutter (Some (normalized home_v2)) 0 in
  let thermostat' := mkHandle Thermostat (Some (normalized home_v2)) 2 in
  home (state_of r) = None
  /\ st_home <$> hmIPState (state_of r) = Some (normalized home_v1)
  /\ deviceMap (state_of r) = [("d1", shutter'); ("d3", thermostat')]
  /\ List.filter is_update (trace_of r)
     = [UpdateDevice "d1" [ArgHandle shutter'; ArgGroups ∅];
        UpdateDevice "d3" [ArgHandle thermostat'; ArgGroups ∅]]
  /\ List.filter is_update
       (trace_of (handle_event stringify_home (device_event "DEVICE_CHANGED" shutter_moved)
                               (state_of r)))
     = [UpdateDevice "d1" [ArgUndefined; ArgDevice shutter_moved; ArgGroups ∅]].
Proof. vm_compute. repeat split; reflexivity. Qed.

(** C8, counterexample: two resolutions of an identity that is not in the
    pool do not end in one accessory; each constructs its own. *)
Lemma createAccessory_twice_uncached :
  ~ resolves_to_one_accessory (generate "d1") "Shutter" "Shutter"
      (CtxDevice shutter) (CtxDevice shutter_moved) new_platform.
Proof. intros [H _]. vm_compute in H. discriminate H. Qed.

(** The store then holds both, and the first keeps the context it was given. *)
Lemma createAccessory_twice_uncached_heap :
  let r1 := createAccessory (generate "d1") "Shutter" (CtxDevice shutter) new_platform in
  let r2 := createAccessory (generate "d1") "Shutter" (CtxDevice shutter_moved)
                            (state_of r1) in
  heap (state_of r2)
  = [mkAccessory "uuid:d1" "Shutter" (Some (CtxDevice shutter));
     mkAccessory "uuid:d1" "Shutter" (Some (CtxDevice shutter_moved))].
Proof. reflexivity. Qed.

(** With the accessory restored by homebridge, the two resolutions agree. *)
Lemma createAccessory_twice_cached :
  resolves_to_one_accessory (generate "d1") "Shutter" "Shutter"
    (CtxDevice shutter) (CtxDevice shutter_moved) restored.
Proof. split; reflexivity. Qed.

Lemma device_removed_known_witness :
  OMap.get "d1" (deviceMap discovered) = Some (mkHandle Shutter None 0)
  /\ OMap.get "d1"
       (deviceMap (state_of (handle_event stringify_home
                               (device_event "DEVICE_REMOVED" shutter) discovered)))
     = None
  /\ List.filter is_unregister
       (trace_of (handle_event stringify_home
                    (device_event "DEVICE_REMOVED" shutter) discovered))
     = [Unregister [0]].
Proof.
  split; [reflexivity|].
  destruct (device_removed_known stringify_home
              (device_event "DEVICE_REMOVED" shutter) shutter
              (mkHandle Shutter None 0)
              (mkState (normalized home_v1) ∅ (st_devices snapshot) None) discovered)
    as (H1 & _ & _ & H4); try reflexivity.
  split; [exact H1 | exact H4].
Defined.

Lemma unknown_device_event_skipped_witness :
  OMap.get "d9" (deviceMap discovered) = None
  /\ state_of (handle_event stringify_home (device_event "DEVICE_ADDED" stranger) discovered)
     = discovered.
Proof.
  split; [reflexivity|].
  apply (unknown_device_event_skipped stringify_home
           (device_event "DEVICE_ADDED" stranger) stranger discovered).
  - simpl. auto.
  - reflexivity.
  - reflexivity.
Defined.

Lemma unsupported_device_skipped_witness :
  supported_type (device_type plug) = false
  /\ OMap.get "d2" (deviceMap discovered) = None.
Proof.
  split; [reflexivity|].
  apply (unsupported_device_skipped generate stringify_device snapshot "d2" plug
           new_platform); reflexivity.
Defined.



Lemma createAccessory_resolution_witness :
  let r1 := createAccessory (generate "d1") "Shutter" (CtxDevice shutter) new_platform in
  let r2 := createAccessory (generate "d1") "Shutter" (CtxDevice shutter_moved)
                            (state_of r1) in
  value_of r2 = mkHmIPAccessory 1 false.
Proof.
  cbv zeta.
  destruct (createAccessory_resolution (generate "d1") "Shutter" "Shutter"
              (CtxDevice shutter) (CtxDevice shutter_moved) new_platform)
    as (_ & _ & _ & H).
  cbv zeta in H. destruct H as (_ & _ & _ & H).
  apply H. intros l [].
Defined.

(** C9, counterexample: a group whose identity is [__proto__] is not stored.
    The assignment makes the payload the prototype of the group store; the
    store gets no entry of that name, and a group-removed event for the
    identity does not undo it. *)
Lemma group_added_proto_not_stored :
  let p1 := state_of (handle_event stringify_home
                        (group_event "GROUP_ADDED" proto_group) discovered) in
  let p2 := state_of (handle_event stringify_home
                        (group_event "GROUP_REMOVED" proto_group) p1) in
  ~ (exists gs1, this_groups p1 = Some gs1 /\ gs1 !! "__proto__" = Some proto_group)
  /\ this_groups p1 = Some ∅
  /\ (hmIPState p1 ≫= st_groups_proto) = Some proto_group
  /\ (hmIPState p2 ≫= st_groups_proto) = Some proto_group.
Proof.
  cbv zeta. split; [|repeat split; reflexivity].
  intros (gs1 & H1 & H2).
  assert (E : this_groups (state_of (handle_event stringify_home
                 (group_event "GROUP_ADDED" proto_group) discovered)) = Some ∅)
    by reflexivity.
  rewrite E in H1. injection H1 as <-. discriminate H2.
Qed.


Lemma group_events_update_store_witness :
  this_groups discovered = Some ∅
  /\ hits_proto_setter (group_id heating) ∅ = false
  /\ exists gs, this_groups
                  (state_of (handle_event stringify_home
                     (group_event "GROUP_CHANGED" heating_renamed)
                     (state_of (handle_event stringify_home
                                  (group_event "GROUP_ADDED" heating) discovered))))
                = Some gs
                /\ gs !! "g1" = Some heating_renamed.
Proof.
  split; [reflexivity|]. split; [reflexivity|].
  destruct (group_events_update_store stringify_home
              (group_event "GROUP_ADDED" heating)
              (group_event "GROUP_CHANGED" heating_renamed)
              (group_event "GROUP_REMOVED" heating)
              heating heating_renamed heating ∅ discovered)
    as (_ & (gs & H1 & H2 & _) & _);
    try reflexivity; try (simpl; auto).
  exists gs. split; [exact H1 | exact H2].
Defined.

Lemma unsupported_device_still_resolved_witness :
  supported_type (device_type plug) = false
  /\ heap (state_of (updateAccessory generate stringify_device "d2" None plug new_platform))
     = [mkAccessory "uuid:d2" "Plug" (Some (CtxDevice plug))].
Proof.
  split; [reflexivity|].
  destruct (unsupported_device_still_resolved generate stringify_device
              "d2" None plug new_platform) as (_ & _ & _ & H); [reflexivity|].
  exact (proj1 (proj2 H)).
Defined.

End SampleRuns.

(** * Further properties of the platform *)

Section MoreProperties.

Variable generate : string -> string.
Variable stringify_device : HmIPDevice -> string.
Variable stringify_home : HmIPHome -> string.

(** ** Home normalisation *)

(** X1: [setHome] touches neither the store nor the outside world; it sets
    the three tags, the firmware version being the access-point version,
    keeps every other field, and applying it to its own result changes
    nothing. *)
Theorem setHome_idempotent h p q :
  let r := setHome h p in
  state_of r = p
  /\ trace_of r = []
  /\ oem (value_of r) = Some "eQ-3"
  /\ home_modelType (value_of r) = Some "HmIPHome"
  /\ firmwareVersion (value_of r) = Some (currentAPVersion h)
  /\ home_id (value_of r) = home_id h
  /\ currentAPVersion (value_of r) = currentAPVersion h
  /\ home_payload (value_of r) = home_payload h
  /\ value_of (setHome (value_of r) q) = value_of r.
Proof. cbv zeta. rewrite !setHome_eq. now repeat split. Qed.

(** ** Events the callback does not act on *)

Lemma unknown_type_eqbs ty :
  ~ In ty known_types ->
  String.eqb ty "GROUP_CHANGED" = false /\ String.eqb ty "GROUP_ADDED" = false
  /\ String.eqb ty "GROUP_REMOVED" = false /\ String.eqb ty "DEVICE_REMOVED" = false
  /\ String.eqb ty "DEVICE_CHANGED" = false /\ String.eqb ty "DEVICE_ADDED" = false
  /\ String.eqb ty "HOME_CHANGED" = false.
Proof.
  intros H. repeat split; apply String.eqb_neq; intros ->; apply H; simpl; tauto.
Qed.

(** X4: an event of a kind the [switch] has no [case] for, whatever payloads
    it carries, leaves the store as it is and is logged once, at debug
    level. *)
Theorem unhandled_event_logged event p :
  ~ In (pushEventType event) known_types ->
  handle_event stringify_home event p
  = (tt, p,
     [Log Debug ["Unhandled event type: " +:+ pushEventType event
                 +:+ " group=" +:+ show_object (ev_group event)
                 +:+ " device=" +:+ show_object (ev_device event)]]).
Proof.
  intros H. apply unknown_type_eqbs in H as (E1 & E2 & E3 & E4 & E5 & E6 & E7).
  unfold handle_event. cbv zeta. rewrite E1, E2, E3, E4, E5, E6, E7. reflexivity.
Qed.

(** X5: an event of a handled kind that lacks the payload of its kind is
    dropped without a trace: the store is unchanged and nothing is logged. *)
Theorem event_without_payload_dropped event p :
  (In (pushEventType event) ["GROUP_CHANGED"; "GROUP_ADDED"; "GROUP_REMOVED"]
   /\ ev_group event = None)
  \/ (In (pushEventType event) ["DEVICE_REMOVED"; "DEVICE_CHANGED"; "DEVICE_ADDED"]
      /\ ev_device event = None)
  \/ (pushEventType event = "HOME_CHANGED" /\ ev_home event = None) ->
  handle_event stringify_home event p = (tt, p, []).
Proof.
  unfold handle_event. cbv zeta. simpl.
  intros [[Hty Hp]|[[Hty Hp]|[Hty Hp]]]; rewrite Hp;
    repeat (destruct Hty as [Hty|Hty]; [rewrite <- Hty; reflexivity|]);
    try contradiction.
  rewrite Hty. reflexivity.
Qed.

(** ** Device events *)

Lemma handle_device_removed event d p :
  pushEventType event = "DEVICE_REMOVED" ->
  ev_device event = Some d ->
  handle_event stringify_home event p =
  match OMap.get (device_id d) (deviceMap p) with
  | Some dev =>
      (tt,
       set_deviceMap (OMap.delete (device_id d) (deviceMap p))
         (update_hmIPState
            (fun s => with_st_devices (OMap.delete (device_id d) (st_devices s)) s) p),
       [Log Debug ["DEVICE_REMOVED: " +:+ device_id d +:+ " " +:+ modelType d];
        Unregister [dev_accessory dev]])
  | None =>
      (tt, p,
       [Log Debug ["DEVICE_REMOVED: " +:+ device_id d +:+ " " +:+ modelType d];
        Log Warn ["Cannot find device: " +:+ device_id d]])
  end.
Proof.
  intros Hty Hd. unfold handle_event. rewrite Hd, Hty. simpl.
  unfold bind, gets, emit, modify, value_of, state_of, trace_of; simpl.
  destruct (OMap.get (device_id d) (deviceMap p)); reflexivity.
Qed.

Lemma omap_keys_delete {V} k (m : list (string * V)) :
  OMap.keys (OMap.delete k m)
  = List.filter (fun k' => negb (String.eqb k' k)) (OMap.keys m).
Proof.
  induction m as [|[k' v] m IH]; simpl; [reflexivity|].
  destruct (String.eqb k' k); simpl; now rewrite IH.
Qed.

(** X7: a device-changed or device-added event for a bound identity makes
    exactly one [updateDevice] call on the bound handle, with [this.home],
    the payload of the event and [this.groups], after the debug line; the
    store is not touched. *)
Theorem known_device_event_dispatched event d dev p :
  In (pushEventType event) ["DEVICE_CHANGED"; "DEVICE_ADDED"] ->
  ev_device event = Some d ->
  OMap.get (device_id d) (deviceMap p) = Some dev ->
  handle_event stringify_home event p
  = (tt, p,
     [Log Debug [pushEventType event +:+ ": " +:+ device_id d +:+ " " +:+ modelType d];
      UpdateDevice (device_id d)
        [arg_of_home (home p); ArgDevice d; arg_of_groups (this_groups p)]]).
Proof.
  intros Hty Hd Hget. unfold handle_event. rewrite Hd.
  simpl in Hty. destruct Hty as [E|[E|[]]]; rewrite <- E; simpl;
    unfold bind, gets, emit, OMap.has, value_of, state_of, trace_of; simpl;
    rewrite Hget; reflexivity.
Qed.

(** X12: handling the same device-removed event a second time changes
    nothing more: whether or not the identity was bound, the second handling
    finds it unbound, makes no unregistration call and only warns. *)
Theorem device_removed_twice event d p :
  pushEventType event = "DEVICE_REMOVED" ->
  ev_device event = Some d ->
  let p1 := state_of (handle_event stringify_home event p) in
  handle_event stringify_home event p1
  = (tt, p1,
     [Log Debug ["DEVICE_REMOVED: " +:+ device_id d +:+ " " +:+ modelType d];
      Log Warn ["Cannot find device: " +:+ device_id d]]).
Proof.
  intros Hty Hd. cbv zeta.
  assert (Hgone : OMap.get (device_id d)
                    (deviceMap (state_of (handle_event stringify_home event p))) = None).
  { rewrite (handle_device_removed event d p Hty Hd).
    destruct (OMap.get (device_id d) (deviceMap p)) eqn:E; cbn [state_of fst snd].
    - apply omap_get_delete_eq.
    - exact E. }
  rewrite (handle_device_removed event d _ Hty Hd). now rewrite Hgone.
Qed.

(** X17: removing a bound device disturbs nothing else.  The other bindings
    keep their handles and their order, the other devices of the snapshot
    stay, and the accessory objects, the pool, [this.home] and the groups
    are as before. *)
Theorem device_removed_frame event d dev p :
  pushEventType event = "DEVICE_REMOVED" ->
  ev_device event = Some d ->
  OMap.get (device_id d) (deviceMap p) = Some dev ->
  let p' := state_of (handle_event stringify_home event p) in
  OMap.keys (deviceMap p')
  = List.filter (fun k => negb (String.eqb k (device_id d))) (OMap.keys (deviceMap p))
  /\ (forall k, k <> device_id d ->
                OMap.get k (deviceMap p') = OMap.get k (deviceMap p))
  /\ (forall k, k <> device_id d ->
                (hmIPState p' ≫= fun s => OMap.get k (st_devices s))
                = (hmIPState p ≫= fun s => OMap.get k (st_devices s)))
  /\ heap p' = heap p /\ accessories p' = accessories p
  /\ home p' = home p /\ this_groups p' = this_groups p.
Proof.
  intros Hty Hd Hget. cbv zeta.
  rewrite (handle_device_removed event d p Hty Hd), Hget.
  cbn [state_of fst snd deviceMap set_deviceMap heap accessories home].
  split; [apply omap_keys_delete|].
  split; [intros k Hk; apply omap_get_delete_ne; congruence|].
  split.
  - intros k Hk. unfold update_hmIPState. cbn [hmIPState set_hmIPState].
    destruct (hmIPState p) as [s|]; [|reflexivity]. simpl.
    apply omap_get_delete_ne. congruence.
  - repeat split. unfold this_groups, update_hmIPState; simpl.
    destruct (groups p); [reflexivity|]. now destruct (hmIPState p).
Qed.

(** ** Group events *)

(** X13: a group-removed event for an identity the store does not hold is
    logged and changes nothing. *)
Theorem group_removed_absent event g gs p :
  pushEventType event = "GROUP_REMOVED" ->
  ev_group event = Some g ->
  this_groups p = Some gs ->
  gs !! group_id g = None ->
  handle_event stringify_home event p
  = (tt, p, [Log Debug ["GROUP_REMOVED: " +:+ group_id g]]).
Proof.
  intros Hty Hg Hgs Hnone. apply this_groups_Some in Hgs as (s & Hs & Href & <-).
  unfold handle_event. rewrite Hg, Hty. simpl.
  unfold bind, emit, modify, value_of, state_of, trace_of; simpl.
  assert (Hdel : groups_delete (group_id g) s = s).
  { unfold groups_delete, with_st_groups. rewrite delete_id by exact Hnone.
    now destruct s. }
  assert (H1 : update_hmIPState (groups_delete (group_id g)) p = p).
  { unfold update_hmIPState, set_hmIPState. rewrite Hs. simpl.
    rewrite Hdel, <- Hs. now destruct p. }
  rewrite H1. unfold update_this_groups. rewrite Href, H1. reflexivity.
Qed.

Lemma groups_assign_frame k v s :
  st_home (groups_assign k v s) = st_home s
  /\ st_devices (groups_assign k v s) = st_devices s.
Proof. unfold groups_assign. now destruct (hits_proto_setter k (st_groups s)). Qed.

(** X14: a group event with a payload only ever writes the groups.  The
    bindings, the accessory objects, the pool, [this.home] and the home and
    devices of the snapshot are untouched, no device is dispatched to, and
    the only effect is the debug line. *)
Theorem group_event_frame event g p :
  In (pushEventType event) ["GROUP_CHANGED"; "GROUP_ADDED"; "GROUP_REMOVED"] ->
  ev_group event = Some g ->
  let r := handle_event stringify_home event p in
  deviceMap (state_of r) = deviceMap p
  /\ heap (state_of r) = heap p
  /\ accessories (state_of r) = accessories p
  /\ home (state_of r) = home p
  /\ st_home <$> hmIPState (state_of r) = st_home <$> hmIPState p
  /\ st_devices <$> hmIPState (state_of r) = st_devices <$> hmIPState p
  /\ trace_of r = [Log Debug [pushEventType event +:+ ": " +:+ group_id g]].
Proof.
  intros Hty Hg. cbv zeta. unfold handle_event. rewrite Hg.
  simpl in Hty. destruct Hty as [E|[E|[E|[]]]]; rewrite <- E; simpl;
    unfold bind, emit, modify, value_of, state_of, trace_of; simpl;
    unfold update_this_groups, update_hmIPState; simpl;
    destruct (groups p), (hmIPState p) as [s|]; simpl;
    rewrite ?(proj1 (groups_assign_frame _ _ _)), ?(proj2 (groups_assign_frame _ _ _));
    repeat split; reflexivity.
Qed.

End MoreProperties.

(** ** The pool of restored accessories *)

Section AccessoryPool.

Variable generate : string -> string.
Variable stringify_device : HmIPDevice -> string.

Lemma configureAccessory_eq a p :
  configureAccessory a p =
  match List.find (uuid_is (heap p ++ [a]) (UUID a)) (accessories p) with
  | Some _ => (tt, set_heap (heap p ++ [a]) p, [])
  | None =>
      (tt,
       set_accessories (accessories p ++ [length (heap p)]) (set_heap (heap p ++ [a]) p),
       [Log Info ["Loading accessory from cache:"; displayName a]])
  end.
Proof.
  unfold configureAccessory, getAccessory, alloc.
  unfold bind, gets, modify, emit, ret, value_of, state_of, trace_of; simpl.
  destruct (List.find (uuid_is (heap p ++ [a]) (UUID a)) (accessories p)); reflexivity.
Qed.

Lemma uuid_is_new (h : list PlatformAccessory) a :
  uuid_is (h ++ [a]) (UUID a) (length h) = true.
Proof.
  unfold uuid_is. rewrite list_lookup_middle by reflexivity. apply String.eqb_refl.
Qed.

Lemma find_app_None {A} (f : A -> bool) l1 l2 :
  List.find f l1 = None -> List.find f (l1 ++ l2) = List.find f l2.
Proof.
  induction l1 as [|x l1 IH]; simpl; [reflexivity|].
  destruct (f x); [discriminate | exact IH].
Qed.

Lemma pool_uuids_app (h : list PlatformAccessory) a pool :
  (forall l, In l pool -> l < length h) ->
  map (fun l : loc => UUID <$> (h ++ [a]) !! l) pool
  = map (fun l : loc => UUID <$> h !! l) pool.
Proof.
  intros Hv. apply map_ext_in. intros l Hl. now rewrite lookup_app_l by auto.
Qed.

Lemma pool_ok_configureAccessory a : preserves pool_ok (configureAccessory a).
Proof.
  intros p [Hv Hnd]. rewrite configureAccessory_eq.
  destruct (List.find (uuid_is (heap p ++ [a]) (UUID a)) (accessories p)) as [l0|] eqn:Hf;
    cbn [state_of fst snd]; split;
    cbn [heap accessories set_heap set_accessories]; unfold pool_uuids;
    cbn [heap accessories set_heap set_accessories].
  - intros l Hl. rewrite length_app. specialize (Hv l Hl). simpl. lia.
  - now rewrite pool_uuids_app.
  - intros l Hl. rewrite length_app. simpl.
    apply in_app_or in Hl as [Hl|[<-|[]]]; [specialize (Hv l Hl)|]; lia.
  - rewrite map_app, pool_uuids_app by assumption. cbn [map].
    rewrite list_lookup_middle by reflexivity. cbn [fmap option_fmap option_map].
    apply List.NoDup_app; [exact Hnd | constructor; [simpl; tauto | constructor] |].
    intros u Hu [<-|[]]. apply in_map_iff in Hu as (l & Hlu & Hl).
    pose proof (List.find_none _ _ Hf l Hl) as Hno.
    rewrite uuid_is_app_valid in Hno by auto. unfold uuid_is in Hno.
    destruct (heap p !! l) as [a'|]; [|discriminate].
    injection Hlu as Hlu. rewrite Hlu, String.eqb_refl in Hno. discriminate.
Qed.

(** X2: however many accessories homebridge restores, and whatever their
    identities, [this.accessories] ends up referring to existing objects of
    pairwise different identities: an accessory whose identity is already in
    the pool is not added. *)
Theorem restored_pool_unique (restore : list PlatformAccessory) p :
  pool_ok p ->
  pool_ok (state_of (forM_ restore configureAccessory p)).
Proof.
  apply (preserves_forM pool_ok). intros a. apply pool_ok_configureAccessory.
Qed.

(** X3: once [configureAccessory] has seen an accessory, [getAccessory]
    finds an accessory of that identity in the pool, and [createAccessory]
    for that identity returns this one as pre-existing, constructing
    nothing. *)
Theorem restored_accessory_found a name c p :
  let p' := state_of (configureAccessory a p) in
  exists l a',
    value_of (getAccessory (UUID a) p') = Some l
    /\ In l (accessories p')
    /\ heap p' !! l = Some a'
    /\ UUID a' = UUID a
    /\ value_of (createAccessory (UUID a) name c p') = mkHmIPAccessory l true
    /\ trace_of (createAccessory (UUID a) name c p') = [].
Proof.
  cbv zeta.
  assert (Hfound : exists l,
            List.find (uuid_is (heap (state_of (configureAccessory a p))) (UUID a))
                      (accessories (state_of (configureAccessory a p))) = Some l).
  { rewrite configureAccessory_eq.
    destruct (List.find (uuid_is (heap p ++ [a]) (UUID a)) (accessories p)) as [l0|] eqn:Hf;
      cbn [state_of fst snd heap accessories set_heap set_accessories].
    - eauto.
    - rewrite (find_app_None _ _ _ Hf). cbn [List.find]. rewrite uuid_is_new. eauto. }
  destruct Hfound as [l Hl].
  destruct (List.find_some _ _ Hl) as [Hin Hu].
  apply uuid_is_Some in Hu as (a' & Ha' & Hu).
  exists l, a'. unfold getAccessory, gets. cbn [value_of fst snd].
  rewrite (createAccessory_cached _ name c _ _ Hl). now repeat split.
Qed.

(** X11: binding a device of a supported type.  If the pool holds an
    accessory of the device's identity, that accessory is bound: nothing is
    constructed, its context becomes the device, and [register()] is called
    on it flagged as from the cache.  Otherwise one accessory is constructed
    with the device's label, bound, and registered flagged as new.  Either
    way the identity is afterwards bound to the handle just constructed. *)
Theorem supported_device_bound id h device k p :
  kind_of_type (device_type device) = Some k ->
  let r := updateAccessory generate stringify_device id h device p in
  let cached := List.find (uuid_is (heap p) (generate id)) (accessories p) in
  let acc := match cached with Some l => l | None => length (heap p) end in
  OMap.get id (deviceMap (state_of r)) = Some (mkHandle k h acc)
  /\ deviceMap (state_of r) = OMap.set id (mkHandle k h acc) (deviceMap p)
  /\ accessories (state_of r) = accessories p
  /\ List.filter is_new_device (trace_of r) = [NewDevice k h acc]
  /\ match cached with
     | Some l =>
         heap (state_of r) = alter (with_context (CtxDevice device)) l (heap p)
         /\ List.filter is_new_accessory (trace_of r) = []
         /\ List.filter is_register (trace_of r) = [Register l true]
     | None =>
         heap (state_of r)
         = heap p ++ [mkAccessory (generate id) (label device) (Some (CtxDevice device))]
         /\ List.filter is_new_accessory (trace_of r)
            = [NewPlatformAccessory (label device) (generate id) (length (heap p))]
         /\ List.filter is_register (trace_of r) = [Register (length (heap p)) false]
     end.
Proof.
  intros Hk. cbv zeta. rewrite updateAccessory_eq. cbv zeta. rewrite Hk.
  destruct (List.find (uuid_is (heap p) (generate id)) (accessories p)) as [l|] eqn:Hf.
  - rewrite (createAccessory_cached _ _ _ _ _ Hf).
    cbn [state_of value_of trace_of fst snd accessory isFromCache
         deviceMap heap accessories set_deviceMap set_heap app].
    split; [apply omap_get_set_eq|]. now destruct k.
  - rewrite (createAccessory_fresh _ _ _ _ Hf).
    cbn [state_of value_of trace_of fst snd accessory isFromCache
         deviceMap heap accessories set_deviceMap set_heap app].
    split; [apply omap_get_set_eq|]. now destruct k.
Qed.

End AccessoryPool.

(** ** What a whole pass and a whole feed do *)

Section Passes.

Variable generate : string -> string.
Variable stringify_device : HmIPDevice -> string.
Variable stringify_home : HmIPHome -> string.

Lemma never_ret {A} f (a : A) : never f (ret a).
Proof. intros p. reflexivity. Qed.

Lemma never_gets {A} f (g : Platform -> A) : never f (gets g).
Proof. intros p. reflexivity. Qed.

Lemma never_modify f g : never f (modify g).
Proof. intros p. reflexivity. Qed.

Lemma never_emit f e : f e = false -> never f (emit e).
Proof. intros H p. simpl. now rewrite H. Qed.

Lemma never_bind {A B} f (c : M A) (k : A -> M B) :
  never f c -> (forall a, never f (k a)) -> never f (bind c k).
Proof.
  intros Hc Hk p. rewrite bind_trace, List.filter_app, Hc, Hk. reflexivity.
Qed.

Lemma never_forM {A} f (l : list A) (body : A -> M unit) :
  (forall x, never f (body x)) -> never f (forM_ l body).
Proof.
  intros Hb. induction l as [|x l IH]; simpl.
  - apply never_ret.
  - apply never_bind; [apply Hb | intros _; exact IH].
Qed.

Ltac never_step :=
  lazymatch goal with
  | |- never _ (if ?b then _ else _) => destruct b
  | |- never _ (match ?o with Some _ => _ | None => _ end) => destruct o
  | |- never _ (setHome _) => apply never_ret
  | |- never _ (ret _) => apply never_ret
  | |- never _ (gets _) => apply never_gets
  | |- never _ (modify _) => apply never_modify
  | |- never _ (emit _) => apply never_emit; auto
  | |- never _ (bind _ _) => apply never_bind; [|intros ?]
  | |- never _ (forM_ _ _) => apply never_forM; intros ?
  end.

(** An event only logs, unregisters and dispatches updates. *)
Lemma handle_event_never f event :
  (forall lvl args, f (Log lvl args) = false) ->
  (forall accs, f (Unregister accs) = false) ->
  (forall target args, f (UpdateDevice target args) = false) ->
  never f (handle_event stringify_home event).
Proof.
  intros Hlog Hun Hup. unfold handle_event. cbv zeta. repeat never_step.
Qed.

Lemma createAccessory_never f uuid name c :
  (forall lvl args, f (Log lvl args) = false) ->
  (forall n u l, f (NewPlatformAccessory n u l) = false) ->
  never f (createAccessory uuid name c).
Proof.
  intros Hlog Hnew p.
  destruct (List.find (uuid_is (heap p) uuid) (accessories p)) as [l|] eqn:Hf.
  - now rewrite (createAccessory_cached _ _ _ _ _ Hf).
  - rewrite (createAccessory_fresh _ _ _ _ Hf). cbn [trace_of snd List.filter].
    now rewrite Hlog, Hnew.
Qed.

(** Binding a device only logs, constructs and registers. *)
Lemma updateAccessory_never f id h device :
  (forall lvl args, f (Log lvl args) = false) ->
  (forall n u l, f (NewPlatformAccessory n u l) = false) ->
  (forall k h acc, f (NewDevice k h acc) = false) ->
  (forall acc b, f (Register acc b) = false) ->
  never f (updateAccessory generate stringify_device id h device).
Proof.
  intros Hlog Hnew Hdev Hreg p. rewrite updateAccessory_eq. cbv zeta.
  destruct (kind_of_type (device_type device)) as [k|]; cbn [trace_of snd];
    rewrite !List.filter_app, (createAccessory_never f _ _ _ Hlog Hnew);
    cbn [app List.filter].
  - destruct k; cbn [app List.filter]; now rewrite ?Hlog, Hdev, Hreg.
  - now rewrite Hlog.
Qed.

Lemma omap_get_Some_keys {V} k (v : V) m : OMap.get k m = Some v -> In k (OMap.keys m).
Proof.
  intros H. destruct (in_dec String.string_dec k (OMap.keys m)) as [Hin|Hin]; [exact Hin|].
  apply omap_get_None_keys in Hin. congruence.
Qed.

Ltac keep_step :=
  lazymatch goal with
  | |- preserves _ (if ?b then _ else _) => destruct b
  | |- preserves _ (match ?o with Some _ => _ | None => _ end) => destruct o
  | |- preserves _ (setHome _) => apply preserves_ret
  | |- preserves _ (ret _) => apply preserves_ret
  | |- preserves _ (emit _) => apply preserves_emit
  | |- preserves _ (gets _) => apply preserves_gets
  | |- preserves _ (bind _ _) => apply preserves_bind; [|intros ?]
  | |- preserves _ (forM_ _ _) => apply preserves_forM; intros ?
  | |- preserves _ (modify _) => apply preserves_modify; intros ? ?
  end.

Lemma after_events_rehome p (h' : HmIPHome) id :
  preserves (after_events p)
    (let* entry := gets (fun p => OMap.get id (deviceMap p)) in
     match entry with
     | Some device =>
         modify (fun p => set_deviceMap
                            (OMap.set id (with_home (Some h') device) (deviceMap p)) p) ;;
         let* gs := gets this_groups in
         emit (UpdateDevice id [ArgHandle (with_home (Some h') device); arg_of_groups gs])
     | None => ret tt
     end).
Proof.
  intros q Hq. rewrite bind_state. cbn [gets value_of state_of fst snd].
  destruct (OMap.get id (deviceMap q)) as [device|] eqn:Hget; [|exact Hq].
  rewrite !bind_state. cbn [gets emit modify value_of state_of fst snd].
  destruct Hq as (Hh & Ha & Hho & Hk). repeat split; try assumption.
  cbn [deviceMap set_deviceMap].
  rewrite omap_keys_set_present by (eapply omap_get_Some_keys; eauto). exact Hk.
Qed.

Lemma after_events_handle_event p event :
  preserves (after_events p) (handle_event stringify_home event).
Proof.
  unfold handle_event. cbv zeta.
  repeat first
    [ lazymatch goal with
      | |- preserves _ (forM_ _ _) =>
          apply preserves_forM; intros ?; apply after_events_rehome
      end
    | keep_step ];
    try assumption;
    match goal with H : after_events _ _ |- _ => destruct H as (Hh & Ha & Hho & Hk) end;
    unfold after_events, update_this_groups, update_hmIPState;
    try match goal with |- context [groups ?q] => destruct (groups q) end;
    cbn [heap accessories home deviceMap set_hmIPState set_deviceMap];
    repeat split; try assumption.
  intros k Hin. apply Hk. rewrite omap_keys_delete in Hin.
  now apply List.filter_In in Hin as [Hin _].
Qed.

(** X6: a feed, however long and whatever its events say, binds nothing
    new.  Every identity bound afterwards was bound before, no accessory and
    no device object is constructed, [register()] is never called, the
    connector is not called, and the accessory objects, the pool and
    [this.home] stay as they were. *)
Theorem feed_never_binds (feed : list HmIPStateChange) p :
  let r := forM_ feed (onMessage stringify_home) p in
  (forall id, In id (OMap.keys (deviceMap (state_of r))) ->
              In id (OMap.keys (deviceMap p)))
  /\ heap (state_of r) = heap p
  /\ accessories (state_of r) = accessories p
  /\ home (state_of r) = home p
  /\ List.filter is_register (trace_of r) = []
  /\ List.filter is_new_accessory (trace_of r) = []
  /\ List.filter is_new_device (trace_of r) = []
  /\ List.filter is_connector (trace_of r) = [].
Proof.
  cbv zeta.
  assert (Hst : after_events p (state_of (forM_ feed (onMessage stringify_home) p))).
  { apply (preserves_forM (after_events p)).
    - intros m. apply preserves_forM. intros e. apply after_events_handle_event.
    - unfold after_events. repeat split. intros k Hk; exact Hk. }
  assert (Hnever : forall f,
             (forall lvl args, f (Log lvl args) = false) ->
             (forall accs, f (Unregister accs) = false) ->
             (forall target args, f (UpdateDevice target args) = false) ->
             List.filter f (trace_of (forM_ feed (onMessage stringify_home) p)) = []).
  { intros f H1 H2 H3. apply never_forM. intros m. apply never_forM. intros e.
    now apply handle_event_never. }
  destruct Hst as (Hh & Ha & Hho & Hk).
  repeat split; try assumption; apply Hnever; reflexivity.
Qed.

(** *** Discovery *)

Lemma updateAccessory_frame id h device q :
  let q' := state_of (updateAccessory generate stringify_device id h device q) in
  accessories q' = accessories q /\ groups q' = groups q /\ home q' = home q
  /\ hmIPState q' = hmIPState q.
Proof.
  cbv zeta. rewrite updateAccessory_eq. cbv zeta.
  pose proof (createAccessory_frame (generate id) (label device) (CtxDevice device) q)
    as (Ha & Hg & Hh & _ & Hs).
  destruct (kind_of_type (device_type device)); cbn [state_of fst snd];
    cbn [accessories groups home hmIPState set_deviceMap]; now repeat split.
Qed.

Lemma pass_frame devs ids q :
  let q' := state_of (forM_ ids (fun id =>
                match OMap.get id devs with
                | Some device =>
                    let* h := gets home in
                    updateAccessory generate stringify_device id h device
                | None => ret tt
                end) q) in
  accessories q' = accessories q /\ groups q' = groups q /\ home q' = home q
  /\ hmIPState q' = hmIPState q.
Proof.
  cbv zeta.
  apply (preserves_forM (fun q' => accessories q' = accessories q /\ groups q' = groups q
                                   /\ home q' = home q /\ hmIPState q' = hmIPState q));
    [|now repeat split].
  intros id q1 (Ha & Hg & Hh & Hs).
  destruct (OMap.get id devs) as [device|]; [|now repeat split].
  rewrite bind_state. cbn [gets value_of state_of fst snd].
  pose proof (updateAccessory_frame id (home q1) device q1) as (Ha' & Hg' & Hh' & Hs').
  repeat split; congruence.
Qed.

Lemma pass_never f devs ids :
  (forall lvl args, f (Log lvl args) = false) ->
  (forall n u l, f (NewPlatformAccessory n u l) = false) ->
  (forall k h acc, f (NewDevice k h acc) = false) ->
  (forall acc b, f (Register acc b) = false) ->
  never f (forM_ ids (fun id =>
             match OMap.get id devs with
             | Some device =>
                 let* h := gets home in
                 updateAccessory generate stringify_device id h device
             | None => ret tt
             end)).
Proof.
  intros H1 H2 H3 H4. apply never_forM. intros id.
  destruct (OMap.get id devs); [|apply never_ret].
  apply never_bind; [apply never_gets|]. intros h0. now apply updateAccessory_never.
Qed.

(** X10: a successful discovery keeps the snapshot as [hmIPState], with
    only the Home normalised, and binds [this.groups] to its groups.  The
    pool and [this.home] are as before.  The connector is called exactly
    three times: to initialise, to fetch the snapshot, and, after every
    device of the snapshot has been dealt with, to subscribe; in between
    nothing is unregistered and no update is dispatched. *)
Theorem discovery_stores_snapshot snapshot p :
  let r := discoverDevices generate stringify_device true snapshot p in
  hmIPState (state_of r)
  = Some (mkState (normalized (st_home snapshot)) (st_groups snapshot)
                  (st_devices snapshot) (st_groups_proto snapshot))
  /\ groups (state_of r) = GroupsOfSnapshot
  /\ this_groups (state_of r) = Some (st_groups snapshot)
  /\ accessories (state_of r) = accessories p
  /\ home (state_of r) = home p
  /\ exists t,
       trace_of r = [ConnectorInit; ApiCall "home/getCurrentState"] ++ t ++ [ConnectWs]
       /\ List.filter is_connector t = []
       /\ List.filter is_unregister t = []
       /\ List.filter is_update t = [].
Proof.
  cbv zeta. rewrite discoverDevices_eq. cbv zeta. cbn [state_of trace_of fst snd].
  match goal with
  | |- context [forM_ ?ids ?body ?q0] =>
      pose proof (pass_frame (st_devices snapshot) ids q0) as (Ha & Hg & Hh & Hs)
  end.
  cbv zeta in Ha, Hg, Hh, Hs.
  assert (Hst : forall q, hmIPState q = Some (mkState (normalized (st_home snapshot))
                                                      (st_groups snapshot)
                                                      (st_devices snapshot)
                                                      (st_groups_proto snapshot)) ->
                          groups q = GroupsOfSnapshot ->
                          this_groups q = Some (st_groups snapshot)).
  { intros q E1 E2. unfold this_groups. now rewrite E2, E1. }
  split; [rewrite Hs; reflexivity|].
  split; [rewrite Hg; reflexivity|].
  split; [apply Hst; [rewrite Hs | rewrite Hg]; reflexivity|].
  split; [rewrite Ha; reflexivity|].
  split; [rewrite Hh; reflexivity|].
  eexists. split; [reflexivity|].
  repeat split; apply pass_never; reflexivity.
Qed.

Lemma pass_keys devs ids q :
  List.NoDup ids ->
  (forall id, In id ids -> ~ In id (OMap.keys (deviceMap q))) ->
  OMap.keys (deviceMap (state_of (forM_ ids (fun id =>
      match OMap.get id devs with
      | Some device =>
          let* h := gets home in
          updateAccessory generate stringify_device id h device
      | None => ret tt
      end) q)))
  = OMap.keys (deviceMap q) ++ List.filter (binds devs) ids.
Proof.
  intros Hnd. revert q. induction Hnd as [|k ids Hk Hnd IH]; intros q Hfresh.
  - simpl. now rewrite app_nil_r.
  - cbn [forM_ List.filter]. rewrite bind_state.
    assert (Hstep : OMap.keys (deviceMap (state_of
              (match OMap.get k devs with
               | Some device =>
                   let* h := gets home in
                   updateAccessory generate stringify_device k h device
               | None => ret tt
               end q)))
            = OMap.keys (deviceMap q) ++ (if binds devs k then [k] else [])).
    { unfold binds. destruct (OMap.get k devs) as [dk|]; [|simpl; now rewrite app_nil_r].
      rewrite bind_state. cbn [gets value_of state_of fst snd].
      rewrite updateAccessory_deviceMap, kind_of_type_supported.
      destruct (kind_of_type (device_type dk)); [|now rewrite app_nil_r].
      apply omap_keys_set_absent. apply Hfresh. now left. }
    rewrite IH.
    + rewrite Hstep. destruct (binds devs k); rewrite <- app_assoc; reflexivity.
    + intros id Hid. rewrite Hstep. intros Hin. apply in_app_or in Hin as [Hin|Hin].
      * apply (Hfresh id); [now right | exact Hin].
      * destruct (binds devs k); [|contradiction].
        destruct Hin as [<-|[]]. contradiction.
Qed.

Lemma pass_kinds devs v ids :
  preserves
    (fun q => home q = v
              /\ forall id dev, In (id, dev) (deviceMap q) ->
                   exists d, OMap.get id devs = Some d
                             /\ kind_of_type (device_type d) = Some (kind dev)
                             /\ dev_home dev = v)
    (forM_ ids (fun id =>
       match OMap.get id devs with
       | Some device =>
           let* h := gets home in
           updateAccessory generate stringify_device id h device
       | None => ret tt
       end)).
Proof.
  apply preserves_forM. intros id q [Hh HK].
  destruct (OMap.get id devs) as [device|] eqn:Hd; [|now split].
  rewrite bind_state. cbn [gets value_of state_of fst snd].
  pose proof (updateAccessory_frame id (home q) device q) as (_ & _ & Hh' & _).
  cbv zeta in Hh'. split; [congruence|].
  rewrite updateAccessory_deviceMap.
  destruct (kind_of_type (device_type device)) as [k|] eqn:Hk; [|exact HK].
  intros id' dev Hin. apply omap_In_set in Hin as [[-> ->]|Hin]; [|now apply HK].
  exists device. now repeat split.
Qed.

(** X9: on a platform that has bound nothing yet, discovery binds exactly
    the devices of the snapshot whose declared type is supported, in the
    order of the snapshot; each handle is of the kind its device's type
    selects and is constructed with [this.home] as it was. *)
Theorem discovery_binds_supported snapshot p :
  List.NoDup (OMap.keys (st_devices snapshot)) ->
  deviceMap p = [] ->
  let p' := state_of (discoverDevices generate stringify_device true snapshot p) in
  OMap.keys (deviceMap p')
  = List.filter (binds (st_devices snapshot)) (OMap.keys (st_devices snapshot))
  /\ forall id dev,
       OMap.get id (deviceMap p') = Some dev ->
       exists d, OMap.get id (st_devices snapshot) = Some d
                 /\ kind_of_type (device_type d) = Some (kind dev)
                 /\ dev_home dev = home p.
Proof.
  intros Hnd Hempty. cbv zeta. rewrite discoverDevices_eq. cbv zeta.
  cbn [state_of fst snd]. split.
  - rewrite pass_keys; cbn [deviceMap update_hmIPState set_hmIPState set_groups];
      rewrite ?Hempty; [reflexivity | exact Hnd | intros ? ? []].
  - intros id dev Hget. apply omap_get_In in Hget. revert id dev Hget.
    apply (pass_kinds (st_devices snapshot) (home p)).
    split; [reflexivity|].
    cbn [deviceMap update_hmIPState set_hmIPState set_groups]. rewrite Hempty.
    intros ? ? [].
Qed.

(** *** A home-changed event, entry by entry *)

Lemma omap_get_app_absent {V} k (m1 m2 : list (string * V)) :
  ~ In k (OMap.keys m1) -> OMap.get k (m1 ++ m2) = OMap.get k m2.
Proof.
  induction m1 as [|[k' v'] m1 IH]; simpl; [reflexivity|].
  intros H. destruct (String.eqb k' k) eqn:E.
  - apply String.eqb_eq in E. exfalso. apply H. now left.
  - apply IH. intros Hin. apply H. now right.
Qed.

Lemma omap_set_app_absent {V} k (v : V) (m1 m2 : list (string * V)) :
  ~ In k (OMap.keys m1) -> OMap.set k v (m1 ++ m2) = m1 ++ OMap.set k v m2.
Proof.
  induction m1 as [|[k' v'] m1 IH]; simpl; [reflexivity|].
  intros H. destruct (String.eqb k' k) eqn:E.
  - apply String.eqb_eq in E. exfalso. apply H. now left.
  - rewrite IH; [reflexivity|]. intros Hin. apply H. now right.
Qed.

Lemma keys_rehome h m : OMap.keys (map (rehome h) m) = OMap.keys m.
Proof. unfold OMap.keys. rewrite map_map. reflexivity. Qed.

Lemma rehome_loop h done todo q :
  deviceMap q = map (rehome h) done ++ todo ->
  List.NoDup (OMap.keys (done ++ todo)) ->
  forM_ (OMap.keys todo) (fun id =>
    let* entry := gets (fun p => OMap.get id (deviceMap p)) in
    match entry with
    | Some device =>
        modify (fun p => set_deviceMap
                 (OMap.set id (with_home (Some (normalized h)) device) (deviceMap p)) p) ;;
        let* gs := gets this_groups in
        emit (UpdateDevice id [ArgHandle (with_home (Some (normalized h)) device);
                               arg_of_groups gs])
    | None => ret tt
    end) q
  = (tt, set_deviceMap (map (rehome h) (done ++ todo)) q,
     map (fun entry => UpdateDevice (fst entry)
                         [ArgHandle (snd (rehome h entry)); arg_of_groups (this_groups q)])
         todo).
Proof.
  revert done q. induction todo as [|[k d] rest IH]; intros done q Hq Hnd.
  - simpl. rewrite app_nil_r in Hq |- *. unfold ret. rewrite <- Hq. now destruct q.
  - assert (Hk : ~ In k (OMap.keys (map (rehome h) done))).
    { rewrite keys_rehome. unfold OMap.keys in Hnd |- *. rewrite map_app in Hnd.
      apply List.NoDup_remove_2 in Hnd. intros Hin. apply Hnd.
      apply in_or_app. now left. }
    cbn [OMap.keys map fst forM_].
    unfold bind at 1.
    assert (Hbody :
      (let* entry := gets (fun p => OMap.get k (deviceMap p)) in
       match entry with
       | Some device =>
           modify (fun p => set_deviceMap
                    (OMap.set k (with_home (Some (normalized h)) device) (deviceMap p)) p) ;;
           let* gs := gets this_groups in
           emit (UpdateDevice k [ArgHandle (with_home (Some (normalized h)) device);
                                 arg_of_groups gs])
       | None => ret tt
       end) q
      = (tt,
         set_deviceMap (map (rehome h) (done ++ [(k, d)]) ++ rest) q,
         [UpdateDevice k [ArgHandle (with_home (Some (normalized h)) d);
                          arg_of_groups (this_groups q)]])).
    { unfold bind, gets, modify, emit, value_of, state_of, trace_of. cbn [fst snd].
      rewrite Hq, omap_get_app_absent by exact Hk. cbn [OMap.get].
      rewrite String.eqb_refl. cbn [fst snd app].
      change (this_groups (set_deviceMap ?m q)) with (this_groups q).
      rewrite Hq, omap_set_app_absent by exact Hk. cbn [OMap.set].
      rewrite String.eqb_refl, map_app, <- app_assoc. reflexivity. }
    rewrite Hbody. cbn [value_of state_of trace_of fst snd].
    rewrite (IH (done ++ [(k, d)])).
    + cbn [value_of state_of trace_of fst snd app map].
      rewrite <- app_assoc. reflexivity.
    + reflexivity.
    + now rewrite <- app_assoc.
Qed.

(** X8: a home-changed event with a Home, on a table that keys every
    identity once.  Every entry, in the table's order, gets the normalised
    Home stored and exactly one [updateDevice] call; kind, accessory and
    position of the entries are kept, and nothing else in the store
    changes. *)
Theorem home_changed_rehomes_all event h p :
  pushEventType event = "HOME_CHANGED" ->
  ev_home event = Some h ->
  List.NoDup (OMap.keys (deviceMap p)) ->
  handle_event stringify_home event p
  = (tt, set_deviceMap (map (rehome h) (deviceMap p)) p,
     Log Debug ["HOME_CHANGED: " +:+ home_id h +:+ " " +:+ stringify_home h]
     :: map (fun entry => UpdateDevice (fst entry)
                            [ArgHandle (snd (rehome h entry));
                             arg_of_groups (this_groups p)])
            (deviceMap p)).
Proof.
  intros Hty Hh Hnd. unfold handle_event. rewrite Hh, Hty. cbv zeta.
  cbn [String.eqb Ascii.eqb Bool.eqb orb].
  unfold bind at 1 2 3. rewrite setHome_eq.
  cbn [emit gets value_of state_of trace_of fst snd app].
  rewrite (rehome_loop h [] (deviceMap p) p); [reflexivity | reflexivity | exact Hnd].
Qed.

(** *** The pool through discovery and feed *)

Lemma pool_ok_stable p q :
  pool_ok p ->
  accessories q = accessories p ->
  (forall (l : loc) u, UUID <$> heap p !! l = Some u -> UUID <$> heap q !! l = Some u) ->
  pool_ok q.
Proof.
  intros [Hv Hnd] Ha Hu.
  assert (Heq : pool_uuids q = pool_uuids p).
  { unfold pool_uuids. rewrite Ha. apply map_ext_in. intros l Hl.
    destruct (lookup_lt_is_Some_2 (heap p) l (Hv l Hl)) as [a Hl'].
    rewrite Hl'. apply Hu. now rewrite Hl'. }
  split; [|now rewrite Heq].
  intros l Hl. rewrite Ha in Hl.
  destruct (lookup_lt_is_Some_2 (heap p) l (Hv l Hl)) as [a Hl'].
  specialize (Hu l (UUID a)). rewrite Hl' in Hu. specialize (Hu eq_refl).
  destruct (heap q !! l) eqn:E; [|discriminate].
  apply lookup_lt_is_Some. eauto.
Qed.

Lemma pool_ok_updateAccessory id h device :
  preserves pool_ok (updateAccessory generate stringify_device id h device).
Proof.
  intros p Hp.
  pose proof (updateAccessory_frame id h device p) as (Ha & _).
  apply (pool_ok_stable p); [exact Hp | exact Ha |].
  intros l u Hl. rewrite updateAccessory_eq. cbv zeta.
  pose proof (createAccessory_uuid_stable (generate id) (label device) (CtxDevice device)
                p l u Hl) as Hc.
  destruct (kind_of_type (device_type device)); exact Hc.
Qed.

Lemma pool_ok_ext p q :
  heap q = heap p -> accessories q = accessories p -> pool_ok p -> pool_ok q.
Proof.
  intros Hh Ha Hp. apply (pool_ok_stable p); [exact Hp | exact Ha |].
  now rewrite Hh.
Qed.

Lemma pool_kept_discoverDevices init_ok snapshot p :
  pool_ok p ->
  let p' := state_of (discoverDevices generate stringify_device init_ok snapshot p) in
  pool_ok p' /\ accessories p' = accessories p.
Proof.
  intros Hp. cbv zeta. destruct init_ok; [|now split].
  rewrite discoverDevices_eq. cbv zeta. cbn [state_of fst snd].
  apply (preserves_forM (fun q => pool_ok q /\ accessories q = accessories p)).
  - intros id q [Hq Ha].
    destruct (OMap.get id (st_devices snapshot)) as [device|]; [|now split].
    rewrite bind_state. cbn [gets value_of state_of fst snd].
    pose proof (updateAccessory_frame id (home q) device q) as (Ha' & _).
    split; [now apply pool_ok_updateAccessory | congruence].
  - split; [|reflexivity]. now apply (pool_ok_ext p).
Qed.

(** X15: discovery and any feed leave [this.accessories] as homebridge
    restored it: the same accessories, still existing and still of pairwise
    different identities, although contexts are overwritten and further
    accessories are constructed beside them. *)
Theorem run_keeps_pool init_ok snapshot feed p :
  pool_ok p ->
  let p' := state_of (run generate stringify_device stringify_home
                          init_ok snapshot feed p) in
  pool_ok p' /\ accessories p' = accessories p.
Proof.
  intros Hp. cbv zeta. unfold run. rewrite bind_state.
  destruct (pool_kept_discoverDevices init_ok snapshot p Hp) as [Hp1 Ha1].
  revert Hp1 Ha1.
  generalize (state_of (discoverDevices generate stringify_device init_ok snapshot p)).
  intros p1 Hp1 Ha1.
  destruct init_ok; [|now split].
  apply (preserves_forM (fun q => pool_ok q /\ accessories q = accessories p));
    [|now split].
  intros m. apply preserves_forM. intros e q [Hq Ha].
  assert (H0 : after_events q q).
  { unfold after_events. repeat split. intros k Hk; exact Hk. }
  pose proof (after_events_handle_event q (snd e) q H0) as (Hh' & Ha' & _).
  split; [now apply (pool_ok_ext q) | congruence].
Qed.

(** *** Unregistration accounts for every binding dropped *)

Lemma conserves_ret {A} (a : A) : conserves (ret a).
Proof. intros q H. split; [exact H | apply Nat.add_0_r]. Qed.

Lemma conserves_gets {A} (g : Platform -> A) : conserves (gets g).
Proof. intros q H. split; [exact H | apply Nat.add_0_r]. Qed.

Lemma conserves_emit e : is_unregister e = false -> conserves (emit e).
Proof.
  intros He q H. split; [exact H|]. cbn [emit trace_of state_of fst snd List.filter].
  rewrite He. apply Nat.add_0_r.
Qed.

Lemma conserves_modify f :
  (forall q, deviceMap (f q) = deviceMap q) -> conserves (modify f).
Proof.
  intros Hf q H. cbn [modify trace_of state_of fst snd List.filter].
  rewrite Hf. split; [exact H | apply Nat.add_0_r].
Qed.

Lemma conserves_bind {A B} (c : M A) (k : A -> M B) :
  conserves c -> (forall a, conserves (k a)) -> conserves (bind c k).
Proof.
  intros Hc Hk q H. rewrite bind_state, bind_trace, List.filter_app, length_app.
  destruct (Hc q H) as [H1 E1].
  destruct (Hk (value_of (c q)) _ H1) as [H2 E2].
  split; [exact H2 | lia].
Qed.

Lemma conserves_forM {A} (l : list A) (body : A -> M unit) :
  (forall x, conserves (body x)) -> conserves (forM_ l body).
Proof.
  intros Hb. induction l as [|x l IH]; simpl.
  - apply conserves_ret.
  - apply conserves_bind; [apply Hb | intros _; exact IH].
Qed.

Lemma omap_length_delete {V} k (v : V) (m : list (string * V)) :
  List.NoDup (OMap.keys m) ->
  OMap.get k m = Some v ->
  S (length (OMap.keys (OMap.delete k m))) = length (OMap.keys m).
Proof.
  induction m as [|[k' v'] m IH]; simpl; [discriminate|].
  intros Hnd Hget. apply List.NoDup_cons_iff in Hnd as [Hk Hnd].
  destruct (String.eqb k' k) eqn:E.
  - apply String.eqb_eq in E. subst k'. f_equal.
    rewrite omap_keys_delete. f_equal. apply List.forallb_filter_id.
    apply forallb_forall. intros x Hx. apply negb_true_iff, String.eqb_neq.
    intros ->. contradiction.
  - simpl. f_equal. now apply IH.
Qed.

Lemma conserves_removal (d : HmIPDevice) :
  conserves
    (let* hmIPDevice := gets (fun p => OMap.get (device_id d) (deviceMap p)) in
     match hmIPDevice with
     | Some dev =>
         emit (Unregister [dev_accessory dev]) ;;
         modify (update_hmIPState
                   (fun s => with_st_devices
                               (OMap.delete (device_id d) (st_devices s)) s)) ;;
         modify (fun p => set_deviceMap (OMap.delete (device_id d) (deviceMap p)) p)
     | None => emit (Log Warn ["Cannot find device: " +:+ device_id d])
     end).
Proof.
  intros q Hnd. unfold bind, gets, emit, modify, value_of, state_of, trace_of.
  cbn [fst snd]. destruct (OMap.get (device_id d) (deviceMap q)) as [dev|] eqn:Hget;
    cbn [fst snd app List.filter is_unregister length deviceMap set_deviceMap
         update_hmIPState set_hmIPState].
  - split; [now apply omap_NoDup_delete|].
    rewrite Nat.add_1_r. now apply (omap_length_delete _ dev).
  - split; [exact Hnd | apply Nat.add_0_r].
Qed.

Lemma conserves_rehome (h' : HmIPHome) id :
  conserves
    (let* entry := gets (fun p => OMap.get id (deviceMap p)) in
     match entry with
     | Some device =>
         modify (fun p => set_deviceMap
                            (OMap.set id (with_home (Some h') device) (deviceMap p)) p) ;;
         let* gs := gets this_groups in
         emit (UpdateDevice id [ArgHandle (with_home (Some h') device); arg_of_groups gs])
     | None => ret tt
     end).
Proof.
  intros q Hnd. unfold bind, gets, emit, modify, ret, value_of, state_of, trace_of.
  cbn [fst snd]. destruct (OMap.get id (deviceMap q)) as [device|] eqn:Hget;
    cbn [fst snd app List.filter is_unregister length deviceMap set_deviceMap].
  - rewrite omap_keys_set_present by (eapply omap_get_Some_keys; eauto).
    split; [exact Hnd | apply Nat.add_0_r].
  - split; [exact Hnd | apply Nat.add_0_r].
Qed.

Lemma conserves_handle_event event : conserves (handle_event stringify_home event).
Proof.
  unfold handle_event. cbv zeta.
  repeat lazymatch goal with
    | |- conserves (if ?b then _ else _) => destruct b
    | |- conserves (match ?o with Some _ => _ | None => _ end) => destruct o
    | |- conserves (forM_ _ _) => apply conserves_forM; intros ?; apply conserves_rehome
    | |- conserves (bind (gets (fun p => OMap.get (device_id ?d) (deviceMap p))) _) =>
        apply (conserves_removal d)
    | |- conserves (setHome _) => apply conserves_ret
    | |- conserves (ret _) => apply conserves_ret
    | |- conserves (gets _) => apply conserves_gets
    | |- conserves (emit _) => apply conserves_emit; reflexivity
    | |- conserves (modify _) => apply conserves_modify; intros ?
    | |- conserves (bind _ _) => apply conserves_bind; [|intros ?]
    end;
    unfold update_this_groups, update_hmIPState;
    try match goal with |- context [groups ?q] => destruct (groups q) end;
    reflexivity.
Qed.

(** X16: over any feed, on a table that keys every identity once, the
    bindings left plus the unregistration calls made add up to the bindings
    there were: a binding disappears only together with exactly one
    [unregisterPlatformAccessories] call, and no call is made for anything
    that was not bound. *)
Theorem feed_unregisters_what_it_unbinds (feed : list HmIPStateChange) p :
  List.NoDup (OMap.keys (deviceMap p)) ->
  let r := forM_ feed (onMessage stringify_home) p in
  List.NoDup (OMap.keys (deviceMap (state_of r)))
  /\ length (OMap.keys (deviceMap (state_of r)))
     + length (List.filter is_unregister (trace_of r))
     = length (OMap.keys (deviceMap p)).
Proof.
  intros Hnd. cbv zeta. apply conserves_forM; [|exact Hnd].
  intros m. apply conserves_forM. intros e. apply conserves_handle_event.
Qed.

End Passes.

(** ** The sample installation, continued *)

Section MoreSampleRuns.
Import Sample.

Ltac distinct_keys :=
  vm_compute;
  repeat (constructor;
          [ let H := fresh in
            intros H; repeat (destruct H as [H|H]; [discriminate H|]); exact H |]);
  constructor.

Lemma unhandled_event_logged_witness :
  ~ In "CLIENT_CHANGED" known_types
  /\ state_of (handle_event stringify_home (mkEvent "CLIENT_CHANGED" None None None)
                            discovered)
     = discovered.
Proof.
  assert (H : ~ In (pushEventType (mkEvent "CLIENT_CHANGED" None None None)) known_types).
  { simpl. intros H. repeat (destruct H as [H|H]; [discriminate H|]). exact H. }
  split; [exact H|].
  now rewrite (unhandled_event_logged stringify_home _ discovered H).
Defined.

Lemma event_without_payload_dropped_witness :
  handle_event stringify_home (mkEvent "GROUP_ADDED" None None None) discovered
  = (tt, discovered, []).
Proof.
  apply (event_without_payload_dropped stringify_home).
  left. split; [simpl; auto | reflexivity].
Defined.

Lemma known_device_event_dispatched_witness :
  OMap.get "d1" (deviceMap discovered) = Some (mkHandle Shutter None 0)
  /\ trace_of (handle_event stringify_home (device_event "DEVICE_CHANGED" shutter_moved)
                            discovered)
     = [Log Debug ["DEVICE_CHANGED: d1 HmIP-FROLL"];
        UpdateDevice "d1" [ArgUndefined; ArgDevice shutter_moved; ArgGroups ∅]].
Proof.
  split; [reflexivity|].
  rewrite (known_device_event_dispatched stringify_home
             (device_event "DEVICE_CHANGED" shutter_moved) shutter_moved
             (mkHandle Shutter None 0) discovered);
    [reflexivity | simpl; auto | reflexivity | reflexivity].
Defined.

Lemma device_removed_twice_witness :
  OMap.get "d1"
    (deviceMap (state_of (handle_event stringify_home
                            (device_event "DEVICE_REMOVED" shutter)
                            (state_of (handle_event stringify_home
                                         (device_event "DEVICE_REMOVED" shutter)
                                         discovered)))))
  = None.
Proof.
  rewrite (device_removed_twice stringify_home
             (device_event "DEVICE_REMOVED" shutter) shutter discovered eq_refl eq_refl).
  reflexivity.
Defined.

Lemma device_removed_frame_witness :
  OMap.get "d1" (deviceMap discovered) = Some (mkHandle Shutter None 0)
  /\ OMap.keys (deviceMap (state_of (handle_event stringify_home
                                       (device_event "DEVICE_REMOVED" shutter)
                                       discovered)))
     = ["d3"].
Proof.
  split; [reflexivity|].
  destruct (device_removed_frame stringify_home
              (device_event "DEVICE_REMOVED" shutter) shutter
              (mkHandle Shutter None 0) discovered eq_refl eq_refl eq_refl) as [H _].
  rewrite H. reflexivity.
Defined.

Lemma group_removed_absent_witness :
  this_groups discovered = Some ∅
  /\ state_of (handle_event stringify_home (group_event "GROUP_REMOVED" heating)
                            discovered)
     = discovered.
Proof.
  split; [reflexivity|].
  now rewrite (group_removed_absent stringify_home
                 (group_event "GROUP_REMOVED" heating) heating ∅ discovered
                 eq_refl eq_refl eq_refl eq_refl).
Defined.

Lemma group_event_frame_witness :
  deviceMap (state_of (handle_event stringify_home (group_event "GROUP_ADDED" heating)
                                    discovered))
  = deviceMap discovered.
Proof.
  apply (group_event_frame stringify_home (group_event "GROUP_ADDED" heating) heating
           discovered); [simpl; auto | reflexivity].
Defined.

Lemma restored_pool_unique_witness :
  pool_ok new_platform
  /\ pool_ok (state_of (forM_ [mkAccessory "uuid:d1" "Shutter" None;
                               mkAccessory "uuid:d1" "Shutter again" None;
                               mkAccessory "uuid:d3" "Thermostat" None]
                              configureAccessory new_platform)).
Proof.
  assert (H : pool_ok new_platform).
  { split; [intros l [] | constructor]. }
  split; [exact H | exact (restored_pool_unique _ new_platform H)].
Defined.

Lemma supported_device_bound_witness :
  kind_of_type (device_type shutter) = Some Shutter
  /\ OMap.get "d1"
       (deviceMap (state_of (updateAccessory generate stringify_device
                               "d1" None shutter restored)))
     = Some (mkHandle Shutter None 0).
Proof.
  split; [reflexivity|].
  apply (supported_device_bound generate stringify_device "d1" None shutter Shutter
           restored eq_refl).
Defined.

Lemma home_changed_rehomes_all_witness :
  List.NoDup (OMap.keys (deviceMap discovered))
  /\ deviceMap (state_of (handle_event stringify_home (home_event home_v2) discovered))
     = map (rehome home_v2) (deviceMap discovered).
Proof.
  assert (H : List.NoDup (OMap.keys (deviceMap discovered))) by distinct_keys.
  split; [exact H|].
  now rewrite (home_changed_rehomes_all stringify_home (home_event home_v2) home_v2
                 discovered eq_refl eq_refl H).
Defined.

Lemma discovery_binds_supported_witness :
  List.NoDup (OMap.keys (st_devices snapshot))
  /\ OMap.keys (deviceMap discovered) = ["d1"; "d3"].
Proof.
  assert (H : List.NoDup (OMap.keys (st_devices snapshot))) by distinct_keys.
  split; [exact H|].
  destruct (discovery_binds_supported generate stringify_device snapshot new_platform
              H eq_refl) as [Hk _].
  unfold discovered. rewrite Hk. reflexivity.
Defined.

Lemma run_keeps_pool_witness :
  pool_ok restored
  /\ accessories (state_of (run generate stringify_device stringify_home
                                true snapshot feed restored))
     = accessories restored.
Proof.
  assert (H : pool_ok restored).
  { split.
    - intros l [<-|[]]. vm_compute. lia.
    - vm_compute. constructor; [intros [] | constructor]. }
  split; [exact H|].
  apply (run_keeps_pool generate stringify_device stringify_home
           true snapshot feed restored H).
Defined.

Lemma feed_unregisters_what_it_unbinds_witness :
  List.NoDup (OMap.keys (deviceMap discovered))
  /\ length (OMap.keys (deviceMap
               (state_of (forM_ feed (onMessage stringify_home) discovered))))
     + length (List.filter is_unregister
                 (trace_of (forM_ feed (onMessage stringify_home) discovered)))
     = 2.
Proof.
  assert (H : List.NoDup (OMap.keys (deviceMap discovered))) by distinct_keys.
  split; [exact H|].
  apply (feed_unregisters_what_it_unbinds stringify_home feed discovered H).
Defined.

End MoreSampleRuns.
